(** * Address-issue reconciliation: the two services and their ledger

    A shallow embedding of
    - [shopify-address-poller.js] (module [Poller]): polls Shopify for orders
      whose shipping address has a validation WARNING/ERROR and tags the
      matching ShipStation order;
    - [address-issue-server.js] (module [Tagger]): polls ShipStation for
      orders whose address validation failed and tags them.

    JavaScript values are modelled as follows.
    - A property that is [null], [undefined] or missing is [None]; the source
      reads such properties only through [?.], [||] and [??], which do not
      tell the three apart.
    - Strings are [string]s of ASCII text: case mapping acts on the letters
      a-z / A-Z and [trim] removes the ASCII white space (tab, line feed,
      vertical tab, form feed, carriage return, space).
    - Instants (the text of [new Date().toISOString()] and of SQLite's
      [CURRENT_TIMESTAMP]) are the clock readings they render, in [Z].
    - Promises are run to completion: an [await]ed call is a function call,
      a rejection is an explicit error result.  Calls to the local SQLite
      file are taken to succeed. *)

From Stdlib Require Import ZArith List String Ascii Bool Lia.
Import ListNotations.
Open Scope string_scope.
Open Scope Z_scope.

(** ** JavaScript string primitives *)

Module JS.

Definition charCode (c : ascii) : nat := nat_of_ascii c.

Definition isWhiteSpace (c : ascii) : bool :=
  let n := charCode c in
  ((9 <=? n) && (n <=? 13))%nat || (n =? 32)%nat.

Definition toUpperChar (c : ascii) : ascii :=
  let n := charCode c in
  if ((97 <=? n) && (n <=? 122))%nat then ascii_of_nat (n - 32) else c.

Definition toLowerChar (c : ascii) : ascii :=
  let n := charCode c in
  if ((65 <=? n) && (n <=? 90))%nat then ascii_of_nat (n + 32) else c.

Fixpoint mapChars (f : ascii -> ascii) (s : string) : string :=
  match s with
  | EmptyString => EmptyString
  | String c r => String (f c) (mapChars f r)
  end.

(** [s.toUpperCase()], [s.toLowerCase()] *)
Definition toUpperCase : string -> string := mapChars toUpperChar.
Definition toLowerCase : string -> string := mapChars toLowerChar.

(** [s.trimStart()], [s.trimEnd()], [s.trim()] *)
Fixpoint trimStart (s : string) : string :=
  match s with
  | EmptyString => EmptyString
  | String c r => if isWhiteSpace c then trimStart r else s
  end.

Fixpoint trimEnd (s : string) : string :=
  match s with
  | EmptyString => EmptyString
  | String c r =>
      match trimEnd r with
      | EmptyString => if isWhiteSpace c then EmptyString else String c EmptyString
      | r' => String c r'
      end
  end.

Definition trim (s : string) : string := trimEnd (trimStart s).

(** [s.replace(c, "")] with a one-character string pattern: only the first
    occurrence is removed. *)
Fixpoint removeFirst (c : ascii) (s : string) : string :=
  match s with
  | EmptyString => EmptyString
  | String d r => if Ascii.eqb d c then r else String d (removeFirst c r)
  end.

(** [String(v || "")] for a property that holds a string or nothing. *)
Definition strOrEmpty (v : option string) : string :=
  match v with
  | Some s => s
  | None => ""
  end.

(** Truthiness of a string: the empty string is falsy. *)
Definition truthy (s : string) : bool := negb (s =? "")%string.

(** [v || null] for a string-or-nothing value. *)
Definition strOrNull (v : option string) : option string :=
  match v with
  | Some s => if truthy s then Some s else None
  | None => None
  end.

(** [n || null] for a number-or-nothing value: [0] is falsy. *)
Definition numOrNull (v : option Z) : option Z :=
  match v with
  | Some n => if n =? 0 then None else Some n
  | None => None
  end.

(** Two strings that differ at most in the case of their letters. *)
Definition sameModuloCase (s t : string) : Prop := toLowerCase s = toLowerCase t.

(** [s.split(c)] with a one-character separator: the empty string splits
    into one empty piece. *)
Fixpoint split (c : ascii) (s : string) : list string :=
  match s with
  | EmptyString => [EmptyString]
  | String d r =>
      if Ascii.eqb d c then EmptyString :: split c r
      else
        match split c r with
        | piece :: pieces => String d piece :: pieces
        | [] => [String d EmptyString]
        end
  end.

(** [v || fallback] for a string-or-nothing value. *)
Definition strOrDefault (v : option string) (fallback : string) : string :=
  match strOrNull v with
  | Some s => s
  | None => fallback
  end.

(** Every character of the string is white space. *)
Fixpoint allWhiteSpace (s : string) : bool :=
  match s with
  | EmptyString => true
  | String c r => isWhiteSpace c && allWhiteSpace r
  end.

(** The character occurs in the string. *)
Fixpoint occurs (c : ascii) (s : string) : bool :=
  match s with
  | EmptyString => false
  | String d r => Ascii.eqb d c || occurs c r
  end.

End JS.

(** ** The four-state address status both vendors' vocabularies map onto *)

Inductive AddressStatus : Type :=
  | NotValidated
  | Verified
  | Warning
  | Failed.

(** The states the specification calls an address issue. *)
Definition warningOrFailed (st : AddressStatus) : bool :=
  match st with
  | Warning | Failed => true
  | NotValidated | Verified => false
  end.

Definition isFailed (st : AddressStatus) : bool :=
  match st with
  | Failed => true
  | _ => false
  end.

(** ** HTTP calls, as both services make them through axios *)

Module Http.

(** The rejection value [e] of a failed call.  [response_data] is
    [JSON.stringify(e.response.data)] when [e.response?.data] is truthy. *)
Record JsError : Type := mkError {
  response_data : option string;
  message : string
}.

(** [e.response?.data ? JSON.stringify(e.response.data) : e.message] *)
Definition errorDetail (e : JsError) : string :=
  match response_data e with
  | Some json => json
  | None => message e
  end.

(** [POST /orders/addtag] *)
Inductive AddTagResult : Type :=
  | AddTagRejected (e : JsError)
  | AddTagResolved.

End Http.

(** ** shopify-address-poller.js *)

Module Poller.

Import Http.

(** *** Configuration read from the environment at start-up *)

Record Config : Type := mkConfig {
  LOOKBACK_MINUTES_ON_FIRST_RUN : Z;
  ADDRESS_ISSUE_TAG_NAME : string
}.

(** *** Values exchanged with Shopify and ShipStation *)

Record ShippingAddress : Type := mkAddress {
  validationResultSummary : option string
}.

(** A node of the [orders] connection, with the fields the query selects. *)
Record ShopifyOrder : Type := mkOrder {
  id : string;
  name : option string;
  updatedAt : Z;
  shippingAddress : option ShippingAddress
}.

Record PageInfo : Type := mkPageInfo {
  hasNextPage : bool;
  endCursor : option string
}.

Record OrderConnection : Type := mkConnection {
  edges : list (option ShopifyOrder);
  pageInfo : option PageInfo
}.

(** The body of a GraphQL response: [errors] is the JSON text of a
    non-empty [errors] array, [orders] is [data.orders]. *)
Record GraphQLBody : Type := mkBody {
  errors : option string;
  orders : option OrderConnection
}.

Inductive PostResult : Type :=
  | PostRejected (e : JsError)
  | PostResolved (body : GraphQLBody).

Record ShipStationOrder : Type := mkSSOrder {
  orderId : Z
}.

Inductive GetResult : Type :=
  | GetRejected (e : JsError)
  | GetResolved (found : list ShipStationOrder).

(** Everything outside the process.  The first argument of each field is the
    number of interactions the pass has had with the outside so far, so that
    the same request may be answered differently at different moments. *)
Record World : Type := mkWorld {
  clock : nat -> Z;
  shopifyOrders : nat -> Z -> option string -> PostResult;
  shipstationOrders : nat -> string -> GetResult;
  shipstationAddTag : nat -> Z -> Z -> AddTagResult
}.

(** *** SQLite: tables [state] and [processed] *)

Record StateRow : Type := mkStateRow {
  key : string;
  value : Z;
  state_updated_at : Z
}.

Record ProcessedRow : Type := mkRow {
  row_id : Z;
  shopify_order_gid : string;
  shopify_order_name : option string;
  shipstation_order_id : option Z;
  status : string;
  note : option string;
  created_at : Z;
  updated_at : Z
}.

Record DB : Type := mkDB {
  state : list StateRow;
  processed : list ProcessedRow;
  autoincrement : Z
}.

(** [initDatabase] on a fresh file: both tables empty. *)
Definition initDatabase : DB := mkDB [] [] 0.

(** [SELECT value FROM state WHERE key = ?] *)
Fixpoint getState (k : string) (rows : list StateRow) : option Z :=
  match rows with
  | [] => None
  | r :: rest => if (key r =? k)%string then Some (value r) else getState k rest
  end.

(** [INSERT INTO state ... ON CONFLICT(key) DO UPDATE SET value, updated_at] *)
Fixpoint upsertState (now : Z) (k : string) (v : Z) (rows : list StateRow)
  : list StateRow :=
  match rows with
  | [] => [mkStateRow k v now]
  | r :: rest =>
      if (key r =? k)%string then mkStateRow k v now :: rest
      else r :: upsertState now k v rest
  end.

Definition setState (now : Z) (k : string) (v : Z) (d : DB) : DB :=
  mkDB (upsertState now k v (state d)) (processed d) (autoincrement d).

(** [SELECT 1 FROM processed WHERE shopify_order_gid = ? LIMIT 1], as [!!row] *)
Definition wasProcessed (gid : string) (d : DB) : bool :=
  existsb (fun r => (shopify_order_gid r =? gid)%string) (processed d).

(** The argument object of [markProcessed]. *)
Record Outcome : Type := mkOutcome {
  shopifyOrderGid : string;
  shopifyOrderName : option string;
  shipstationOrderId : option Z;
  outcomeStatus : string;
  outcomeNote : option string
}.

(** The [DO UPDATE SET] clause applied to the conflicting row. *)
Definition updateRow (now : Z) (o : Outcome) (r : ProcessedRow) : ProcessedRow :=
  mkRow (row_id r) (shopify_order_gid r)
        (shopifyOrderName o)
        (JS.numOrNull (shipstationOrderId o))
        (outcomeStatus o)
        (JS.strOrNull (outcomeNote o))
        (created_at r)
        now.

(** The row a conflict-free [INSERT] creates. *)
Definition insertedRow (now : Z) (rowid : Z) (o : Outcome) : ProcessedRow :=
  mkRow rowid (shopifyOrderGid o)
        (shopifyOrderName o)
        (JS.numOrNull (shipstationOrderId o))
        (outcomeStatus o)
        (JS.strOrNull (outcomeNote o))
        now
        now.

Definition conflicts (o : Outcome) (r : ProcessedRow) : bool :=
  (shopify_order_gid r =? shopifyOrderGid o)%string.

(** [INSERT INTO processed ... ON CONFLICT(shopify_order_gid) DO UPDATE SET ...] *)
Definition markProcessed (now : Z) (o : Outcome) (d : DB) : DB :=
  if existsb (conflicts o) (processed d) then
    mkDB (state d)
         (map (fun r => if conflicts o r then updateRow now o r else r) (processed d))
         (autoincrement d)
  else
    mkDB (state d)
         (processed d ++ [insertedRow now (autoincrement d + 1) o])%list
         (autoincrement d + 1).

(** *** Business logic *)

(** [String(s ?? "").trim()] *)
Definition normalize (s : option string) : string := JS.trim (JS.strOrEmpty s).

(** [order?.shippingAddress?.validationResultSummary] *)
Definition summaryOf (order : option ShopifyOrder) : option string :=
  match order with
  | Some o =>
      match shippingAddress o with
      | Some a => validationResultSummary a
      | None => None
      end
  | None => None
  end.

Definition isShopifyAddressIssue (order : option ShopifyOrder) : bool :=
  let v := JS.toUpperCase (normalize (summaryOf order)) in
  (v =? "WARNING")%string || (v =? "ERROR")%string.

(** [String(name || "").replace("#", "").trim()] *)
Definition orderNumberFromShopifyName (name : option string) : string :=
  JS.trim (JS.removeFirst "#"%char (JS.strOrEmpty name)).

(** [Date.now() - minutes * 60 * 1000], as an instant *)
Definition isoMinutesAgo (now : Z) (minutes : Z) : Z := now - minutes * 60 * 1000.

(** *** ShipStation calls *)

(** [findShipStationOrder]: a rejected request is logged and answered with
    [null]; otherwise [orders[0] || null]. *)
Definition findShipStationOrder (w : World) (t : nat) (orderNumber : string)
  : option ShipStationOrder :=
  match shipstationOrders w t orderNumber with
  | GetRejected _ => None
  | GetResolved found => hd_error found
  end.

(** *** Fetching the orders updated since the watermark *)

Inductive Fetched : Type :=
  | FetchReturned (results : list (option ShopifyOrder)) (t : nat)
  | FetchThrew (e : JsError) (t : nat).

Definition graphQLError (json : string) : JsError :=
  mkError None ("Shopify GraphQL errors: " ++ json).

(** The [while (true)] loop of [fetchShopifyOrdersUpdatedSince]; [fuel] bounds
    the number of pages requested, [None] means the bound was reached while
    Shopify still announced a next page. *)
Fixpoint fetchPages (w : World) (since : Z) (fuel : nat) (t : nat)
  (after : option string) (results : list (option ShopifyOrder))
  : option Fetched :=
  match fuel with
  | O => None
  | S fuel' =>
      match shopifyOrders w t since after with
      | PostRejected e => Some (FetchThrew e (S t))
      | PostResolved body =>
          match errors body with
          | Some json => Some (FetchThrew (graphQLError json) (S t))
          | None =>
              let es := match orders body with Some c => edges c | None => [] end in
              let pi := match orders body with Some c => pageInfo c | None => None end in
              let results' := (results ++ es)%list in
              match pi with
              | Some p =>
                  if hasNextPage p
                  then fetchPages w since fuel' (S t) (endCursor p) results'
                  else Some (FetchReturned results' (S t))
              | None => Some (FetchReturned results' (S t))
              end
          end
      end
  end.

Definition fetchShopifyOrdersUpdatedSince (w : World) (since : Z) (fuel : nat)
  (t : nat) : option Fetched :=
  fetchPages w since fuel t None [].

(** *** One pass *)

Record Stats : Type := mkStats {
  inspected : nat;
  addressIssues : nat;
  newlyTagged : nat;
  notInShipStation : nat;
  skippedAlready : nat;
  errorCount : nat
}.

Definition noStats : Stats := mkStats 0 0 0 0 0 0.

(** What a pass acts on: the database, the number of interactions with the
    outside so far, and the [addtag] requests sent to ShipStation
    (order id, tag id), oldest first. *)
Record Run : Type := mkRun {
  db : DB;
  ticks : nat;
  tagRequests : list (Z * Z)
}.

Definition countInspected (s : Stats) : Stats :=
  mkStats (S (inspected s)) (addressIssues s) (newlyTagged s)
          (notInShipStation s) (skippedAlready s) (errorCount s).
Definition countIssue (s : Stats) : Stats :=
  mkStats (inspected s) (S (addressIssues s)) (newlyTagged s)
          (notInShipStation s) (skippedAlready s) (errorCount s).
Definition countTagged (s : Stats) : Stats :=
  mkStats (inspected s) (addressIssues s) (S (newlyTagged s))
          (notInShipStation s) (skippedAlready s) (errorCount s).
Definition countNotFound (s : Stats) : Stats :=
  mkStats (inspected s) (addressIssues s) (newlyTagged s)
          (S (notInShipStation s)) (skippedAlready s) (errorCount s).
Definition countSkipped (s : Stats) : Stats :=
  mkStats (inspected s) (addressIssues s) (newlyTagged s)
          (notInShipStation s) (S (skippedAlready s)) (errorCount s).
Definition countError (s : Stats) : Stats :=
  mkStats (inspected s) (addressIssues s) (newlyTagged s)
          (notInShipStation s) (skippedAlready s) (S (errorCount s)).

(** [await markProcessed({...})]: one interaction, reading SQLite's clock. *)
Definition recordOutcome (w : World) (o : Outcome) (r : Run) : Run :=
  mkRun (markProcessed (clock w (ticks r)) o (db r)) (S (ticks r)) (tagRequests r).

Definition taggedNote (cfg : Config) (summary : string) : string :=
  "Tagged " ++ ADDRESS_ISSUE_TAG_NAME cfg ++ " (Shopify validation=" ++ summary ++ ")".

(** The body of [for (const o of orders)] in [pollOnce]. *)
Definition processOrder (cfg : Config) (w : World) (tagId : Z)
  (acc : Run * Stats) (o : option ShopifyOrder) : Run * Stats :=
  let r := fst acc in
  let s := countInspected (snd acc) in
  let summary := normalize (summaryOf o) in
  if negb (isShopifyAddressIssue o) then (r, s) else
  match o with
  | None => (r, s)
  | Some ord =>
      let s := countIssue s in
      if wasProcessed (id ord) (db r) then (r, countSkipped s) else
      let orderNumber := orderNumberFromShopifyName (name ord) in
      if negb (JS.truthy orderNumber) then (r, s) else
      match findShipStationOrder w (ticks r) orderNumber with
      | None =>
          let r1 := mkRun (db r) (S (ticks r)) (tagRequests r) in
          (recordOutcome w
             (mkOutcome (id ord) (name ord) None "not_found"
                        (Some "Not found in ShipStation yet")) r1,
           countNotFound s)
      | Some ssOrder =>
          let r1 := mkRun (db r) (S (S (ticks r)))
                          (tagRequests r ++ [(orderId ssOrder, tagId)])%list in
          match shipstationAddTag w (S (ticks r)) (orderId ssOrder) tagId with
          | AddTagResolved =>
              (recordOutcome w
                 (mkOutcome (id ord) (name ord) (Some (orderId ssOrder)) "tagged"
                            (Some (taggedNote cfg summary))) r1,
               countTagged s)
          | AddTagRejected e =>
              (recordOutcome w
                 (mkOutcome (id ord) (name ord) None "error"
                            (Some (errorDetail e))) r1,
               countError s)
          end
      end
  end.

Definition processOrders (cfg : Config) (w : World) (tagId : Z)
  (acc : Run * Stats) (os : list (option ShopifyOrder)) : Run * Stats :=
  fold_left (processOrder cfg w tagId) os acc.

Definition WATERMARK : string := "last_shopify_poll_iso".

Inductive PassResult : Type :=
  | PassCompleted (r : Run) (s : Stats)
  | PassThrew (e : JsError) (r : Run).

(** The instants a pass reads before it starts on the orders:
    [since], and the tick at which the fetch is started. *)
Definition sinceOf (cfg : Config) (w : World) (r : Run) : Z * nat :=
  match getState WATERMARK (state (db r)) with
  | Some since => (since, S (ticks r))
  | None =>
      (isoMinutesAgo (clock w (S (ticks r))) (LOOKBACK_MINUTES_ON_FIRST_RUN cfg),
       S (S (ticks r)))
  end.

(** [pollOnce(tagId)].  The clock is read when the pass starts (the
    "Poll started" line), for the first-run lookback, for [newSince] once the
    fetch has returned, and by SQLite at each write. *)
Definition pollOnce (cfg : Config) (w : World) (fuel : nat) (tagId : Z) (r : Run)
  : option PassResult :=
  let '(since, t) := sinceOf cfg w r in
  match fetchShopifyOrdersUpdatedSince w since fuel t with
  | None => None
  | Some (FetchThrew e t') => Some (PassThrew e (mkRun (db r) t' (tagRequests r)))
  | Some (FetchReturned os t') =>
      let newSince := clock w t' in
      let '(r1, s) :=
        processOrders cfg w tagId (mkRun (db r) (S t') (tagRequests r), noStats) os in
      let r2 := mkRun (setState (clock w (ticks r1)) WATERMARK newSince (db r1))
                      (S (ticks r1)) (tagRequests r1) in
      Some (PassCompleted r2 s)
  end.

(** The instant read on the "Poll started" line of a pass begun in [r]. *)
Definition passStart (w : World) (r : Run) : Z := clock w (ticks r).

(** [get_watermark()] *)
Definition watermark (d : DB) : option Z := getState WATERMARK (state d).

End Poller.

(** ** address-issue-server.js *)

Module Tagger.

Import Http.

Record Config : Type := mkConfig {
  ORDER_STATUSES : list string;
  LOOKBACK_DAYS : Z
}.

Record Address : Type := mkAddress {
  addressVerified : option string
}.

(** An element of the [orders] array ShipStation lists. *)
Record Order : Type := mkOrder {
  orderId : option Z;
  orderNumber : option string;
  orderKey : option string;
  shipTo : option Address
}.

(** [res.data || {}] of [GET /orders]. *)
Record Listing : Type := mkListing {
  orders : option (list (option Order));
  pages : option Z;
  totalPages : option Z
}.

Inductive ListResult : Type :=
  | ListRejected (e : JsError)
  | ListResolved (data : Listing).

Record World : Type := mkWorld {
  clock : nat -> Z;
  listOrders : nat -> string -> Z -> Z -> ListResult;
  addTagToOrder : nat -> Z -> Z -> AddTagResult
}.

(** *** SQLite: table [processed] *)

Record ProcessedRow : Type := mkRow {
  row_id : Z;
  shipstation_order_id : Z;
  order_number : option string;
  status : string;
  note : option string;
  created_at : Z;
  updated_at : Z
}.

Record DB : Type := mkDB {
  processed : list ProcessedRow;
  autoincrement : Z
}.

Definition initDatabase : DB := mkDB [] 0.

Definition conflicts (oid : Z) (r : ProcessedRow) : bool :=
  shipstation_order_id r =? oid.

(** The [DO UPDATE SET] clause: [status], [note] and [updated_at] only. *)
Definition updateRow (now : Z) (st : string) (nt : option string)
  (r : ProcessedRow) : ProcessedRow :=
  mkRow (row_id r) (shipstation_order_id r) (order_number r) st nt (created_at r) now.

(** [INSERT INTO processed ... ON CONFLICT(shipstation_order_id) DO UPDATE SET ...] *)
Definition markProcessed (now : Z) (oid : Z) (num : option string)
  (st : string) (nt : option string) (d : DB) : DB :=
  if existsb (conflicts oid) (processed d) then
    mkDB (map (fun r => if conflicts oid r then updateRow now st nt r else r)
              (processed d))
         (autoincrement d)
  else
    mkDB (processed d ++ [mkRow (autoincrement d + 1) oid num st nt now now])%list
         (autoincrement d + 1).

Definition wasProcessed (oid : Z) (d : DB) : bool :=
  existsb (conflicts oid) (processed d).

(** *** Business logic *)

Definition ADDRESS_FAILED_VALUE : string := "Address validation failed".

(** [order?.shipTo?.addressVerified] *)
Definition addressVerifiedOf (order : option Order) : option string :=
  match order with
  | Some o =>
      match shipTo o with
      | Some a => addressVerified a
      | None => None
      end
  | None => None
  end.

Definition isAddressVerificationFailed (order : option Order) : bool :=
  (JS.toLowerCase (JS.strOrEmpty (addressVerifiedOf order))
   =? JS.toLowerCase ADDRESS_FAILED_VALUE)%string.

(** [Date.now() - days * 24 * 60 * 60 * 1000], as an instant *)
Definition formatIsoDateDaysAgo (now : Z) (days : Z) : Z :=
  now - days * 24 * 60 * 60 * 1000.

Record Stats : Type := mkStats {
  foundFailed : nat;
  newlyTagged : nat;
  skippedAlready : nat
}.

Definition noStats : Stats := mkStats 0 0 0.

Record Run : Type := mkRun {
  db : DB;
  ticks : nat;
  tagRequests : list (Z * Z)
}.

(** [order.orderNumber || order.orderKey || ""] *)
Definition orderNumberOf (o : Order) : string :=
  match JS.strOrNull (orderNumber o) with
  | Some n => n
  | None => JS.strOrEmpty (JS.strOrNull (orderKey o))
  end.

(** The body of [for (const order of orders)] in [scanAndTagAddressIssues].
    An element that is [null] makes [order.orderId] throw. *)
Inductive OrderStep : Type :=
  | StepDone (r : Run) (s : Stats)
  | StepThrew (r : Run).

Definition scanOrder (w : World) (tagId : Z) (r : Run) (s : Stats)
  (order : option Order) : OrderStep :=
  match order with
  | None => StepThrew r
  | Some o =>
      match JS.numOrNull (orderId o) with
      | None => StepDone r s
      | Some oid =>
          if negb (isAddressVerificationFailed order) then StepDone r s else
          let s1 := mkStats (S (foundFailed s)) (newlyTagged s) (skippedAlready s) in
          if wasProcessed oid (db r) then
            StepDone r (mkStats (foundFailed s1) (newlyTagged s1) (S (skippedAlready s1)))
          else
            let reqs := (tagRequests r ++ [(oid, tagId)])%list in
            match addTagToOrder w (ticks r) oid tagId with
            | AddTagResolved =>
                StepDone
                  (mkRun (markProcessed (clock w (S (ticks r))) oid
                            (Some (orderNumberOf o)) "tagged"
                            (Some "Tagged ADDRESS ISSUE") (db r))
                         (S (S (ticks r))) reqs)
                  (mkStats (foundFailed s1) (S (newlyTagged s1)) (skippedAlready s1))
            | AddTagRejected e =>
                StepDone
                  (mkRun (markProcessed (clock w (S (ticks r))) oid
                            (Some (orderNumberOf o)) "error"
                            (Some (errorDetail e)) (db r))
                         (S (S (ticks r))) reqs)
                  s1
            end
      end
  end.

Fixpoint scanOrders (w : World) (tagId : Z) (r : Run) (s : Stats)
  (os : list (option Order)) : OrderStep :=
  match os with
  | [] => StepDone r s
  | o :: rest =>
      match scanOrder w tagId r s o with
      | StepDone r' s' => scanOrders w tagId r' s' rest
      | StepThrew r' => StepThrew r'
      end
  end.

Inductive ScanResult : Type :=
  | ScanCompleted (r : Run) (s : Stats)
  | ScanThrew (r : Run).

(** [data.pages || data.totalPages || 1] *)
Definition totalPagesOf (data : Listing) : Z :=
  match JS.numOrNull (pages data) with
  | Some n => n
  | None =>
      match JS.numOrNull (totalPages data) with
      | Some n => n
      | None => 1
      end
  end.

(** The [while (true)] loop over the pages of one order status; [fuel] bounds
    the number of pages requested. *)
Fixpoint scanPages (w : World) (tagId : Z) (modifyDateStart : Z) (st : string)
  (fuel : nat) (page : Z) (r : Run) (s : Stats) : option ScanResult :=
  match fuel with
  | O => None
  | S fuel' =>
      match listOrders w (ticks r) st modifyDateStart page with
      | ListRejected _ => Some (ScanThrew (mkRun (db r) (S (ticks r)) (tagRequests r)))
      | ListResolved data =>
          let r0 := mkRun (db r) (S (ticks r)) (tagRequests r) in
          match orders data with
          | None | Some [] => Some (ScanCompleted r0 s)
          | Some os =>
              match scanOrders w tagId r0 s os with
              | StepThrew r' => Some (ScanThrew r')
              | StepDone r' s' =>
                  if totalPagesOf data <=? page then Some (ScanCompleted r' s')
                  else scanPages w tagId modifyDateStart st fuel' (page + 1) r' s'
              end
          end
      end
  end.

(** The [for (const status of ORDER_STATUSES)] loop. *)
Fixpoint scanStatuses (w : World) (tagId : Z) (modifyDateStart : Z) (fuel : nat)
  (sts : list string) (r : Run) (s : Stats) : option ScanResult :=
  match sts with
  | [] => Some (ScanCompleted r s)
  | st :: rest =>
      match scanPages w tagId modifyDateStart st fuel 1 r s with
      | None => None
      | Some (ScanThrew r') => Some (ScanThrew r')
      | Some (ScanCompleted r' s') =>
          scanStatuses w tagId modifyDateStart fuel rest r' s'
      end
  end.

(** The run an order, or a scan, leaves behind, whether or not it threw. *)
Definition runOfStep (x : OrderStep) : Run :=
  match x with
  | StepDone r _ => r
  | StepThrew r => r
  end.

Definition runOfScan (x : ScanResult) : Run :=
  match x with
  | ScanCompleted r _ => r
  | ScanThrew r => r
  end.

(** The ledger of [r'] is the ledger of [r] followed by further rows. *)
Definition extends (r r' : Run) : Prop :=
  exists new, processed (db r') = (processed (db r) ++ new)%list.

Definition scanAndTagAddressIssues (cfg : Config) (w : World) (fuel : nat)
  (tagId : Z) (r : Run) : option ScanResult :=
  let modifyDateStart := formatIsoDateDaysAgo (clock w (ticks r)) (LOOKBACK_DAYS cfg) in
  scanStatuses w tagId modifyDateStart fuel (ORDER_STATUSES cfg)
               (mkRun (db r) (S (S (ticks r))) (tagRequests r)) noStats.

End Tagger.

(** ** The start-up sequence and the poll timer (both services)

    [start] awaits the first pass and only then calls [setInterval]; the
    timer's callback starts a pass and returns without awaiting it.  A pass is
    described by how long it takes; instants are in milliseconds. *)

Module Scheduler.

Record Timing : Type := mkTiming {
  POLL_INTERVAL_MS : Z;
  (** when [start] reaches [await pollOnce(tagId)] *)
  began : Z;
  (** whether the awaited first pass rejects: [start().catch] then exits *)
  firstPassThrows : bool;
  (** how long pass [k] takes; pass [0] is the awaited one, pass [k] for
      [k > 0] is started by the [k]-th firing of the timer *)
  duration : nat -> Z
}.

(** The instant at which [setInterval] is called. *)
Definition armed (tm : Timing) : Z := began tm + duration tm 0%nat.

(** The span [begin, settle) of pass [k], if that pass is ever started. *)
Definition passWindow (tm : Timing) (k : nat) : option (Z * Z) :=
  match k with
  | O => Some (began tm, began tm + duration tm 0%nat)
  | S _ =>
      if firstPassThrows tm then None
      else
        let b := armed tm + Z.of_nat k * POLL_INTERVAL_MS tm in
        Some (b, b + duration tm k)
  end.

Definition running (tm : Timing) (k : nat) (t : Z) : bool :=
  match passWindow tm k with
  | Some (b, e) => (b <=? t) && (t <? e)
  | None => false
  end.

End Scheduler.

(** ** The vendors' vocabularies, as the comments in the sources give them *)

(** Shopify: [NO_ISSUES | WARNING | ERROR | null]. *)
Definition shopifySummaryText (st : AddressStatus) : option string :=
  match st with
  | NotValidated => None
  | Verified => Some "NO_ISSUES"
  | Warning => Some "WARNING"
  | Failed => Some "ERROR"
  end.

(** ShipStation: the four values of [addressVerified]. *)
Definition shipstationVerifiedText (st : AddressStatus) : string :=
  match st with
  | NotValidated => "Address not yet validated"
  | Verified => "Address validated successfully"
  | Warning => "Address validation warning"
  | Failed => "Address validation failed"
  end.

Definition shopifyOrderWith (gid : string) (nm : option string) (upd : Z)
  (summary : option string) : option Poller.ShopifyOrder :=
  Some (Poller.mkOrder gid nm upd (Some (Poller.mkAddress summary))).

Definition shipstationOrderWith (oid : option Z) (num key : option string)
  (verified : option string) : option Tagger.Order :=
  Some (Tagger.mkOrder oid num key (Some (Tagger.mkAddress verified))).

(** ** Ledger and pass vocabulary used by the statements below *)

Module Ledger.

Import Poller.



(** A direct call of [markProcessed] outside a pass. *)
Definition mark (now : Z) (o : Outcome) (r : Run) : Run :=
  mkRun (markProcessed now o (db r)) (ticks r) (tagRequests r).

(** One thing that happens to the database: a pass that completes, a pass
    that throws, or a call of [markProcessed]. *)
Inductive Step : Run -> Run -> Prop :=
  | StepPassCompleted cfg w fuel tagId r r' s :
      pollOnce cfg w fuel tagId r = Some (PassCompleted r' s) -> Step r r'
  | StepPassThrew cfg w fuel tagId r r' e :
      pollOnce cfg w fuel tagId r = Some (PassThrew e r') -> Step r r'
  | StepMark now o r : Step r (mark now o r).

Inductive Reaches : Run -> Run -> Prop :=
  | ReachesHere r : Reaches r r
  | ReachesNext r1 r2 r3 : Reaches r1 r2 -> Step r2 r3 -> Reaches r1 r3.

(** The wall clock never runs backwards during the pass. *)
Definition clockMonotone (w : World) : Prop :=
  forall i j : nat, (i <= j)%nat -> clock w i <= clock w j.

(** An order a pass has nothing left to do for: it shows no address issue,
    or it has a ledger row, or it has no business number. *)
Definition settled (d : DB) (o : option ShopifyOrder) : bool :=
  negb (isShopifyAddressIssue o) ||
  match o with
  | Some ord =>
      wasProcessed (id ord) d ||
      negb (JS.truthy (orderNumberFromShopifyName (name ord)))
  | None => true
  end.

(** The state in which a second pass starts when the watermark is put back
    to what it was in [before]. *)
Definition holdWatermark (before after : Run) : Run :=
  mkRun (mkDB (state (db before)) (processed (db after)) (autoincrement (db after)))
        (ticks after) (tagRequests after).

(** The orders a pass started in [r] fetches, if the fetch returns. *)
Definition fetchedBy (cfg : Config) (w : World) (fuel : nat) (r : Run)
  : option Fetched :=
  fetchShopifyOrdersUpdatedSince w (fst (sinceOf cfg w r)) fuel (snd (sinceOf cfg w r)).

End Ledger.

(** ** Sample data *)

Module Sample.

Import Http Poller.

Definition cfg : Config := mkConfig (24 * 60) "ADDRESS ISSUE".

(** A clock that advances by one second at every interaction. *)
Definition clockAt (i : nat) : Z := 1700000000000 + 1000 * Z.of_nat i.

Definition order1001 : ShopifyOrder :=
  mkOrder "gid://shopify/Order/1" (Some "#1001") 1699999990000
          (Some (mkAddress (Some "ERROR"))).

Definition orderNoNumber : ShopifyOrder :=
  mkOrder "gid://shopify/Order/2" (Some " # ") 1699999991000
          (Some (mkAddress (Some "WARNING"))).

Definition onePage (os : list (option ShopifyOrder)) : PostResult :=
  PostResolved (mkBody None (Some (mkConnection os (Some (mkPageInfo false None))))).

Definition timeout : JsError := mkError None "timeout of 15000ms exceeded".

(** Shopify lists order #1001; the ShipStation search times out. *)
Definition lookupDown : World :=
  mkWorld clockAt
          (fun _ _ _ => onePage [Some order1001])
          (fun _ _ => GetRejected timeout)
          (fun _ _ _ => AddTagResolved).

(** Shopify lists order #1001; ShipStation knows it as order 555. *)
Definition allUp : World :=
  mkWorld clockAt
          (fun _ _ _ => onePage [Some order1001])
          (fun _ _ => GetResolved [mkSSOrder 555])
          (fun _ _ _ => AddTagResolved).


Definition fresh : Run := mkRun initDatabase 0 [].

(** The run a pass in world [w] leaves behind, with ten pages of fuel and
    tag id 42. *)
Definition afterPass (w : World) (r : Run) : Run :=
  match pollOnce cfg w 10 42 r with
  | Some (PassCompleted r' _) => r'
  | Some (PassThrew _ r') => r'
  | None => r
  end.

(** A database in which order #1001 is recorded as not found. *)
Definition seen : Run :=
  Ledger.mark 1690000000000
    (mkOutcome "gid://shopify/Order/1" (Some "#1001") None "not_found"
               (Some "Not found in ShipStation yet"))
    fresh.

(** Five-minute timer; the first scheduled pass takes one millisecond longer
    than the interval, every other pass takes a second. *)
Definition slowPass : Scheduler.Timing :=
  Scheduler.mkTiming 300000 0 false
    (fun k => match k with 1%nat => 300001 | _ => 1000 end).

(** Five-minute timer, every pass takes a second. *)
Definition quickPasses : Scheduler.Timing :=
  Scheduler.mkTiming 300000 0 false (fun _ => 1000).

End Sample.

(** ** Start-up of the two services: environment, tag lookup, first pass *)

Module Boot.

Import Http.

(** [process.env] *)
Definition Env : Type := string -> option string.

(** [(process.env.X || "").trim()] *)
Definition trimmedVar (env : Env) (x : string) : string :=
  JS.trim (JS.strOrEmpty (env x)).

(** [!v] for a variable of the environment read as it is. *)
Definition unset (env : Env) (x : string) : bool :=
  negb (JS.truthy (JS.strOrEmpty (env x))).

(** [if (!V) missing.push("V")], appended to what is missing so far. *)
Definition pushIf (b : bool) (x : string) (missing : list string) : list string :=
  if b then (missing ++ [x])%list else missing.

(** [missingEnvVars] of shopify-address-poller.js: the two Shopify variables
    are trimmed when they are read, the two ShipStation variables are not. *)
Definition missingEnvVars (env : Env) : list string :=
  pushIf (unset env "SHIPSTATION_API_SECRET") "SHIPSTATION_API_SECRET"
    (pushIf (unset env "SHIPSTATION_API_KEY") "SHIPSTATION_API_KEY"
       (pushIf (negb (JS.truthy (trimmedVar env "SHOPIFY_ADMIN_ACCESS_TOKEN")))
               "SHOPIFY_ADMIN_ACCESS_TOKEN"
          (pushIf (negb (JS.truthy (trimmedVar env "SHOPIFY_SHOP_DOMAIN")))
                  "SHOPIFY_SHOP_DOMAIN" []))).

(** [requireEnv] of address-issue-server.js *)
Definition requireEnv (env : Env) : list string :=
  pushIf (unset env "SHIPSTATION_API_SECRET") "SHIPSTATION_API_SECRET"
    (pushIf (unset env "SHIPSTATION_API_KEY") "SHIPSTATION_API_KEY" []).

(** [ORDER_STATUSES] of address-issue-server.js:
    [(process.env.ORDER_STATUSES || "awaiting_shipment,on_hold")
       .split(",").map((s) => s.trim()).filter(Boolean)] *)
Definition orderStatuses (env : Env) : list string :=
  filter JS.truthy
    (map JS.trim
       (JS.split ","%char
          (JS.strOrDefault (env "ORDER_STATUSES") "awaiting_shipment,on_hold"))).

(** An element of the tag list [GET /accounts/listtags] answers with. *)
Record Tag : Type := mkTag {
  name : option string;
  tagId : Z
}.

Inductive TagsResult : Type :=
  | TagsRejected (e : JsError)
  | TagsResolved (tags : list Tag).

(** The predicate of [tags.find]:
    [String(t.name || "").toLowerCase() === tagName.toLowerCase()] *)
Definition named (tagName : string) (t : Tag) : bool :=
  (JS.toLowerCase (JS.strOrEmpty (name t)) =? JS.toLowerCase tagName)%string.

(** [getTagId] / [getTagIdByName] on the tag list received:
    [match ? match.tagId : null] *)
Definition getTagId (tags : list Tag) (tagName : string) : option Z :=
  match find (named tagName) tags with
  | Some t => Some (tagId t)
  | None => None
  end.

Inductive Started : Type :=
  (** [process.exit(code)], with the database as it is then *)
  | Exited (code : Z) (d : Poller.DB)
  (** the first pass has completed and [setInterval] has been called *)
  | TimerSet (r : Poller.Run) (tag : Z).

(** [start] of shopify-address-poller.js, on the database file [d]
    ([initDatabase] creates the tables only if they do not exist).  A
    rejection anywhere in [start] reaches [start().catch], which exits
    with code 1. *)
Definition start (env : Env) (cfg : Poller.Config) (tags : TagsResult)
  (w : Poller.World) (fuel : nat) (d : Poller.DB) : option Started :=
  match missingEnvVars env with
  | _ :: _ => Some (Exited 1 d)
  | [] =>
      match tags with
      | TagsRejected _ => Some (Exited 1 d)
      | TagsResolved ts =>
          match JS.numOrNull (getTagId ts (Poller.ADDRESS_ISSUE_TAG_NAME cfg)) with
          | None => Some (Exited 1 d)
          | Some tag =>
              match Poller.pollOnce cfg w fuel tag (Poller.mkRun d 0 []) with
              | None => None
              | Some (Poller.PassThrew _ r) => Some (Exited 1 (Poller.db r))
              | Some (Poller.PassCompleted r _) => Some (TimerSet r tag)
              end
          end
      end
  end.

End Boot.

(** ** Measures of a pass used by the statements below *)

Module Measure.

Import Poller.

(** Number of fetched orders the classifier flags. *)
Definition issueCount (os : list (option ShopifyOrder)) : nat :=
  List.length (filter isShopifyAddressIssue os).

(** Rows recorded, as the counters of a pass add them up. *)
Definition recorded (s : Stats) : nat :=
  (newlyTagged s + notInShipStation s + errorCount s)%nat.

(** Tag requests sent, as the counters of a pass add them up. *)
Definition requested (s : Stats) : nat := (newlyTagged s + errorCount s)%nat.

(** Flagged orders accounted for by one of the four outcome counters. *)
Definition outcomes (s : Stats) : nat :=
  (newlyTagged s + notInShipStation s + skippedAlready s + errorCount s)%nat.

(** What one order adds to the issue counter. *)
Definition flagged (o : option ShopifyOrder) : nat :=
  if isShopifyAddressIssue o then 1%nat else 0%nat.

(** What a pass over the orders [os] writes when it appends [row]: the row
    of a flagged order of [os] with a business number, in one of the three
    statuses, with a destination id only when tagged. *)
Definition writtenFor (os : list (option ShopifyOrder)) (row : ProcessedRow) : Prop :=
  exists ord,
    In (Some ord) os /\
    isShopifyAddressIssue (Some ord) = true /\
    orderNumberFromShopifyName (name ord) <> "" /\
    shopify_order_gid row = id ord /\
    shopify_order_name row = name ord /\
    created_at row = updated_at row /\
    ((status row = "tagged" /\ note row <> None) \/
     (status row = "not_found" /\ shipstation_order_id row = None /\
      note row = Some "Not found in ShipStation yet") \/
     (status row = "error" /\ shipstation_order_id row = None)).

(** Shopify answers every request without error and announces a next page. *)
Definition alwaysMore (w : World) : Prop :=
  forall t since after,
    exists c p,
      shopifyOrders w t since after = PostResolved (mkBody None (Some c)) /\
      pageInfo c = Some p /\ hasNextPage p = true.

(** The edges and the page information of a response body, as
    [fetchShopifyOrdersUpdatedSince] reads them. *)
Definition edgesOf (body : GraphQLBody) : list (option ShopifyOrder) :=
  match orders body with
  | Some c => edges c
  | None => []
  end.

Definition pageInfoOf (body : GraphQLBody) : option PageInfo :=
  match orders body with
  | Some c => pageInfo c
  | None => None
  end.

(** [!pageInfo?.hasNextPage] *)
Definition lastPage (body : GraphQLBody) : bool :=
  match pageInfoOf body with
  | Some p => negb (hasNextPage p)
  | None => true
  end.

(** [Chain w since t after pages t']: asked at interaction [t] with cursor
    [after], and then with the cursor each answer gives, Shopify answers
    without error with the pages [pages], of which only the last one
    announces no next page; [t'] is the interaction count after the last. *)
Inductive Chain (w : World) (since : Z)
  : nat -> option string -> list (list (option ShopifyOrder)) -> nat -> Prop :=
  | ChainLast t after body :
      shopifyOrders w t since after = PostResolved body ->
      errors body = None ->
      lastPage body = true ->
      Chain w since t after [edgesOf body] (S t)
  | ChainNext t after body p pages t' :
      shopifyOrders w t since after = PostResolved body ->
      errors body = None ->
      pageInfoOf body = Some p ->
      hasNextPage p = true ->
      Chain w since (S t) (endCursor p) pages t' ->
      Chain w since t after (edgesOf body :: pages) t'.


(** What [UNIQUE(shipstation_order_id)] demands of the tagger's table. *)
Definition taggerUnique (d : Tagger.DB) : Prop :=
  NoDup (map Tagger.shipstation_order_id (Tagger.processed d)).

(** An order the tagger has nothing left to do for: it has no order id, or
    its address validation did not fail, or it has a ledger row. *)
Definition taggerSettled (d : Tagger.DB) (o : option Tagger.Order) : bool :=
  match o with
  | Some ord =>
      match JS.numOrNull (Tagger.orderId ord) with
      | Some oid =>
          negb (Tagger.isAddressVerificationFailed o) || Tagger.wasProcessed oid d
      | None => true
      end
  | None => false
  end.

(** Since a scan began with [rows0] ledger rows and [reqs0] tag requests,
    as many rows as requests have been added. *)
Definition balanced (rows0 reqs0 : nat) (r : Tagger.Run) : Prop :=
  (List.length (Tagger.processed (Tagger.db r)) + reqs0
   = List.length (Tagger.tagRequests r) + rows0)%nat.

(** ... and the counters follow the rows: every order found is either a row
    added or an order skipped, and every order tagged is a row added. *)
Definition counted (rows0 reqs0 : nat) (r : Tagger.Run) (s : Tagger.Stats) : Prop :=
  balanced rows0 reqs0 r /\
  (Tagger.foundFailed s + rows0
   = List.length (Tagger.processed (Tagger.db r)) + Tagger.skippedAlready s)%nat /\
  (Tagger.newlyTagged s + rows0 <= List.length (Tagger.processed (Tagger.db r)))%nat.

(** What [PRIMARY KEY] demands of the [state] table. *)
Definition stateUnique (d : DB) : Prop := NoDup (map key (state d)).

End Measure.

(** ** Further sample data *)

Module Scenario.

Import Http Poller.

(** Shopify answers every request with one order and announces a next page. *)
Definition endless : World :=
  mkWorld Sample.clockAt
          (fun _ _ _ =>
             PostResolved
               (mkBody None
                  (Some (mkConnection [Some Sample.order1001]
                           (Some (mkPageInfo true (Some "next")))))))
          (fun _ _ => GetResolved [mkSSOrder 555])
          (fun _ _ _ => AddTagResolved).

(** The rejection of an [addtag] call that ShipStation refuses. *)
Definition refused : JsError :=
  mkError (Some "Too many requests") "Request failed with status code 429".

(** Shopify lists two pages of one order each. *)
Definition twoPages : World :=
  mkWorld Sample.clockAt
          (fun _ _ after =>
             match after with
             | None =>
                 PostResolved
                   (mkBody None
                      (Some (mkConnection [Some Sample.order1001]
                               (Some (mkPageInfo true (Some "cursor-1"))))))
             | Some _ =>
                 PostResolved
                   (mkBody None
                      (Some (mkConnection [Some Sample.orderNoNumber]
                               (Some (mkPageInfo false None)))))
             end)
          (fun _ _ => GetResolved [mkSSOrder 555])
          (fun _ _ _ => AddTagResolved).


(** Shopify lists order #1001, ShipStation knows it twice and refuses the
    [addtag] call. *)
Definition tagRefused : World :=
  mkWorld Sample.clockAt
          (fun _ _ _ => Sample.onePage [Some Sample.order1001])
          (fun _ _ => GetResolved [mkSSOrder 555; mkSSOrder 556])
          (fun _ _ _ => AddTagRejected refused).

(** An environment with the four variables of the poller set, and the tag
    list of the account. *)
Definition envSet : Boot.Env :=
  fun x =>
    if (x =? "SHOPIFY_SHOP_DOMAIN")%string then Some "example.myshopify.com"
    else if (x =? "SHOPIFY_ADMIN_ACCESS_TOKEN")%string then Some "shpat-token"
    else if (x =? "SHIPSTATION_API_KEY")%string then Some "key"
    else if (x =? "SHIPSTATION_API_SECRET")%string then Some "secret"
    else None.

Definition accountTags : list Boot.Tag :=
  [Boot.mkTag (Some "Rush") 11; Boot.mkTag (Some "Address Issue") 42].

(** The tagger's view: ShipStation lists one page with an order whose
    address validation failed, an order whose address is fine and an entry
    without order id; tagging succeeds. *)
Definition failedOrder : Tagger.Order :=
  Tagger.mkOrder (Some 7001) (Some "1001") None
    (Some (Tagger.mkAddress (Some "Address validation failed"))).

Definition fineOrder : Tagger.Order :=
  Tagger.mkOrder (Some 7002) (Some "1002") None
    (Some (Tagger.mkAddress (Some "Address validated successfully"))).

Definition noIdOrder : Tagger.Order :=
  Tagger.mkOrder None None (Some "key-3")
    (Some (Tagger.mkAddress (Some "Address validation failed"))).

Definition onHoldOnly : Tagger.Config := Tagger.mkConfig ["on_hold"] 14.

Definition shipstationUp : Tagger.World :=
  Tagger.mkWorld Sample.clockAt
    (fun _ _ _ _ =>
       Tagger.ListResolved
         (Tagger.mkListing (Some [Some failedOrder; Some fineOrder; Some noIdOrder])
                           None None))
    (fun _ _ _ => AddTagResolved).

Definition taggerFresh : Tagger.Run := Tagger.mkRun Tagger.initDatabase 0 [].

(** The run a scan in [shipstationUp] leaves behind, with ten pages of fuel
    and tag id 42. *)
Definition afterScan (r : Tagger.Run) : Tagger.Run :=
  match Tagger.scanAndTagAddressIssues onHoldOnly shipstationUp 10 42 r with
  | Some res => Tagger.runOfScan res
  | None => r
  end.

End Scenario.

(** * Properties *)

(** ** Strings *)

Section CaseMapping.

Import JS.

Lemma lower_upper_char (c : ascii) : toLowerChar (toUpperChar c) = toLowerChar c.
Proof. destruct c as [[] [] [] [] [] [] [] []]; reflexivity. Qed.

Lemma upper_lower_char (c : ascii) : toUpperChar (toLowerChar c) = toUpperChar c.
Proof. destruct c as [[] [] [] [] [] [] [] []]; reflexivity. Qed.

Lemma mapChars_compose (f g : ascii -> ascii) (s : string) :
  mapChars f (mapChars g s) = mapChars (fun c => f (g c)) s.
Proof. induction s as [|c r IH]; simpl; [reflexivity | now rewrite IH]. Qed.

Lemma mapChars_ext (f g : ascii -> ascii) (s : string) :
  (forall c, f c = g c) -> mapChars f s = mapChars g s.
Proof. intros E; induction s as [|c r IH]; simpl; [reflexivity | now rewrite E, IH]. Qed.

Lemma lower_upper (s : string) : toLowerCase (toUpperCase s) = toLowerCase s.
Proof.
  unfold toLowerCase, toUpperCase. rewrite mapChars_compose.
  apply mapChars_ext, lower_upper_char.
Qed.

Lemma upper_lower (s : string) : toUpperCase (toLowerCase s) = toUpperCase s.
Proof.
  unfold toLowerCase, toUpperCase. rewrite mapChars_compose.
  apply mapChars_ext, upper_lower_char.
Qed.

Lemma upper_eq_iff_lower_eq (s t : string) :
  toUpperCase s = toUpperCase t <-> sameModuloCase s t.
Proof.
  unfold sameModuloCase; split; intros E.
  - rewrite <- (lower_upper s), <- (lower_upper t). now rewrite E.
  - rewrite <- (upper_lower s), <- (upper_lower t). now rewrite E.
Qed.

End CaseMapping.

(** ** The classifiers *)

Lemma isShopifyAddressIssue_iff (o : option Poller.ShopifyOrder) :
  Poller.isShopifyAddressIssue o = true <->
  exists s, Poller.summaryOf o = Some s /\
            (JS.sameModuloCase (JS.trim s) "WARNING" \/
             JS.sameModuloCase (JS.trim s) "ERROR").
Proof.
  unfold Poller.isShopifyAddressIssue, Poller.normalize.
  rewrite orb_true_iff, !String.eqb_eq.
  change "WARNING" with (JS.toUpperCase "WARNING") at 1.
  change "ERROR" with (JS.toUpperCase "ERROR") at 1.
  rewrite !upper_eq_iff_lower_eq.
  destruct (Poller.summaryOf o) as [s|]; simpl.
  - split.
    + intros H. exists s. split; [reflexivity | exact H].
    + intros (s' & E & H). injection E as <-. exact H.
  - split.
    + intros [H | H]; discriminate H.
    + intros (s' & E & _). discriminate E.
Qed.

Lemma isAddressVerificationFailed_iff (o : option Tagger.Order) :
  Tagger.isAddressVerificationFailed o = true <->
  exists s, Tagger.addressVerifiedOf o = Some s /\
            JS.sameModuloCase s "Address validation failed".
Proof.
  unfold Tagger.isAddressVerificationFailed, Tagger.ADDRESS_FAILED_VALUE.
  rewrite String.eqb_eq.
  destruct (Tagger.addressVerifiedOf o) as [s|]; simpl.
  - split.
    + intros H. exists s. split; [reflexivity | exact H].
    + intros (s' & E & H). injection E as <-. exact H.
  - split.
    + intros H. discriminate H.
    + intros (s' & E & _). discriminate E.
Qed.

(** C1 (as the code has it).  [isShopifyAddressIssue] is true exactly when the
    validation summary is present and, once trimmed, is WARNING or ERROR up to
    the case of its letters; on Shopify's vocabulary that is exactly the
    warning and failed states.  [isAddressVerificationFailed] is true exactly
    when [addressVerified] is present and is "Address validation failed" up to
    case; on ShipStation's vocabulary that is the failed state only.  Both are
    false when the order, its address or the validation field is missing. *)
Theorem classifiers_exact :
  (forall o, Poller.isShopifyAddressIssue o = true <->
     exists s, Poller.summaryOf o = Some s /\
               (JS.sameModuloCase (JS.trim s) "WARNING" \/
                JS.sameModuloCase (JS.trim s) "ERROR")) /\
  (forall o, Tagger.isAddressVerificationFailed o = true <->
     exists s, Tagger.addressVerifiedOf o = Some s /\
               JS.sameModuloCase s "Address validation failed") /\
  (forall st gid nm upd,
     Poller.isShopifyAddressIssue (shopifyOrderWith gid nm upd (shopifySummaryText st))
     = warningOrFailed st) /\
  (forall st oid num key,
     Tagger.isAddressVerificationFailed
       (shipstationOrderWith oid num key (Some (shipstationVerifiedText st)))
     = isFailed st) /\
  (Poller.isShopifyAddressIssue None = false /\
   (forall gid nm upd,
      Poller.isShopifyAddressIssue (Some (Poller.mkOrder gid nm upd None)) = false) /\
   (forall gid nm upd,
      Poller.isShopifyAddressIssue (shopifyOrderWith gid nm upd None) = false)) /\
  (Tagger.isAddressVerificationFailed None = false /\
   (forall oid num key,
      Tagger.isAddressVerificationFailed (Some (Tagger.mkOrder oid num key None)) = false) /\
   (forall oid num key,
      Tagger.isAddressVerificationFailed (shipstationOrderWith oid num key None) = false)) /\
  (forall gid nm upd,
     Poller.isShopifyAddressIssue (shopifyOrderWith gid nm upd (Some "WARNING")) = true /\
     Poller.isShopifyAddressIssue (shopifyOrderWith gid nm upd (Some " warning ")) = true /\
     Poller.isShopifyAddressIssue (shopifyOrderWith gid nm upd (Some "verified")) = false) /\
  (forall oid num key,
     Tagger.isAddressVerificationFailed
       (shipstationOrderWith oid num key (Some "Address validation failed")) = true /\
     Tagger.isAddressVerificationFailed
       (shipstationOrderWith oid num key (Some "ADDRESS VALIDATION FAILED")) = true /\
     Tagger.isAddressVerificationFailed
       (shipstationOrderWith oid num key (Some "verified")) = false).
Proof.
  split; [exact isShopifyAddressIssue_iff |].
  split; [exact isAddressVerificationFailed_iff |].
  split; [intros [] ? ? ?; reflexivity |].
  split; [intros [] ? ? ?; reflexivity |].
  repeat split; reflexivity.
Qed.

(** C1, as stated, fails for [isAddressVerificationFailed]: ShipStation's
    warning value is a warning-equivalent state, and the predicate is false
    on it. *)
Lemma classifier_false_on_shipstation_warning :
  Tagger.isAddressVerificationFailed
    (shipstationOrderWith (Some 7001) (Some "1001") None
                          (Some (shipstationVerifiedText Warning)))
  <> warningOrFailed Warning.
Proof. discriminate. Qed.

(** ** The ledger table *)

Section LedgerFacts.

Import Poller Ledger.

Lemma wasProcessed_conflicts (o : Outcome) (d : DB) :
  existsb (conflicts o) (processed d) = wasProcessed (shopifyOrderGid o) d.
Proof. reflexivity. Qed.

Lemma markProcessed_new (now : Z) (o : Outcome) (d : DB) :
  wasProcessed (shopifyOrderGid o) d = false ->
  markProcessed now o d =
  mkDB (state d)
       (processed d ++ [insertedRow now (autoincrement d + 1) o])%list
       (autoincrement d + 1).
Proof.
  intros H. unfold markProcessed. now rewrite wasProcessed_conflicts, H.
Qed.

Lemma markProcessed_existing (now : Z) (o : Outcome) (d : DB) :
  wasProcessed (shopifyOrderGid o) d = true ->
  markProcessed now o d =
  mkDB (state d)
       (map (fun r => if conflicts o r then updateRow now o r else r) (processed d))
       (autoincrement d).
Proof.
  intros H. unfold markProcessed. now rewrite wasProcessed_conflicts, H.
Qed.

Lemma update_keeps_gids (now : Z) (o : Outcome) (rows : list ProcessedRow) :
  map shopify_order_gid
      (map (fun r => if conflicts o r then updateRow now o r else r) rows)
  = map shopify_order_gid rows.
Proof.
  rewrite map_map. apply map_ext. intros r. now destruct (conflicts o r).
Qed.


Lemma wasProcessed_In (gid : string) (d : DB) :
  wasProcessed gid d = true <-> In gid (map shopify_order_gid (processed d)).
Proof.
  unfold wasProcessed. rewrite existsb_exists, in_map_iff. split.
  - intros (r & Hin & E). apply String.eqb_eq in E. now exists r.
  - intros (r & E & Hin). exists r. split; [exact Hin | now apply String.eqb_eq].
Qed.

Lemma NoDup_snoc {A : Type} (l : list A) (x : A) :
  NoDup l -> ~ In x l -> NoDup (l ++ [x])%list.
Proof.
  induction l as [|y l IH]; simpl; intros U N.
  - constructor; [intros [] | constructor].
  - inversion U as [|? ? Hy Ul]; subst. constructor.
    + rewrite in_app_iff. simpl. intros [H | [H | []]]; [now apply Hy |].
      apply N. now left.
    + apply IH; [exact Ul |]. intros H. apply N. now right.
Qed.




End LedgerFacts.

(** ** One order of a pass *)

Section OrderFacts.

Import Http Poller Ledger.

Variables (cfg : Config) (w : World) (tagId : Z).

(** Either the order leaves the run as it was, or it is a new address issue
    with a business number and exactly one outcome is recorded for it. *)
Lemma processOrder_cases (acc : Run * Stats) (o : option ShopifyOrder) :
  fst (processOrder cfg w tagId acc o) = fst acc \/
  exists ord out now,
    o = Some ord /\
    isShopifyAddressIssue o = true /\
    wasProcessed (id ord) (db (fst acc)) = false /\
    JS.truthy (orderNumberFromShopifyName (name ord)) = true /\
    shopifyOrderGid out = id ord /\
    db (fst (processOrder cfg w tagId acc o)) = markProcessed now out (db (fst acc)).
Proof.
  unfold processOrder.
  destruct (isShopifyAddressIssue o) eqn:Issue; simpl; [| now left].
  destruct o as [ord|]; [| now left].
  destruct (wasProcessed (id ord) (db (fst acc))) eqn:Seen; [now left |].
  destruct (JS.truthy (orderNumberFromShopifyName (name ord))) eqn:Num; simpl;
    [| now left].
  right. exists ord.
  destruct (findShipStationOrder w (ticks (fst acc)) _) as [ss|];
    [destruct (shipstationAddTag w _ _ _) |];
    do 2 eexists;
    (split; [reflexivity |]);
    (split; [first [assumption | reflexivity] |]);
    (split; [first [assumption | reflexivity] |]);
    (split; [first [assumption | reflexivity] |]);
    (split; [| simpl; reflexivity]); reflexivity.
Qed.

Lemma processOrder_extends (acc : Run * Stats) (o : option ShopifyOrder) :
  state (db (fst (processOrder cfg w tagId acc o))) = state (db (fst acc)) /\
  exists new,
    processed (db (fst (processOrder cfg w tagId acc o)))
    = (processed (db (fst acc)) ++ new)%list.
Proof.
  destruct (processOrder_cases acc o) as [E | (ord & out & now & _ & _ & W & _ & G & E)].
  - rewrite E. split; [reflexivity |]. exists []. now rewrite app_nil_r.
  - rewrite E. rewrite <- G in W. rewrite (markProcessed_new _ _ _ W). simpl.
    split; [reflexivity |]. eexists. reflexivity.
Qed.


Lemma processOrders_extends (os : list (option ShopifyOrder)) (acc : Run * Stats) :
  state (db (fst (processOrders cfg w tagId acc os))) = state (db (fst acc)) /\
  exists new,
    processed (db (fst (processOrders cfg w tagId acc os)))
    = (processed (db (fst acc)) ++ new)%list.
Proof.
  revert acc. induction os as [|o os IH]; intros acc; simpl.
  - split; [reflexivity |]. exists []. now rewrite app_nil_r.
  - destruct (IH (processOrder cfg w tagId acc o)) as (St & new2 & P2).
    destruct (processOrder_extends acc o) as (St1 & new1 & P1).
    unfold processOrders in *. simpl. split; [congruence |].
    exists (new1 ++ new2)%list. rewrite P2, P1. now rewrite app_assoc.
Qed.


End OrderFacts.

(** ** One pass *)

Section PassFacts.

Import Http Poller Ledger.

Variables (cfg : Config) (w : World) (fuel : nat) (tagId : Z).

Lemma pollOnce_unfold (r : Run) :
  pollOnce cfg w fuel tagId r =
  match fetchedBy cfg w fuel r with
  | None => None
  | Some (FetchThrew e t') => Some (PassThrew e (mkRun (db r) t' (tagRequests r)))
  | Some (FetchReturned os t') =>
      let acc := processOrders cfg w tagId
                   (mkRun (db r) (S t') (tagRequests r), noStats) os in
      Some (PassCompleted
              (mkRun (setState (clock w (ticks (fst acc))) WATERMARK (clock w t')
                               (db (fst acc)))
                     (S (ticks (fst acc))) (tagRequests (fst acc)))
              (snd acc))
  end.
Proof.
  unfold pollOnce, fetchedBy. destruct (sinceOf cfg w r) as [since t]. simpl.
  destruct (fetchShopifyOrdersUpdatedSince w since fuel t) as [[os t' | e t'] |];
    try reflexivity.
  destruct (processOrders cfg w tagId _ os) as [r1 s]. reflexivity.
Qed.

(** A pass whose fetch returns runs to its end. *)
Lemma pollOnce_completes (r : Run) (os : list (option ShopifyOrder)) (t' : nat) :
  fetchedBy cfg w fuel r = Some (FetchReturned os t') ->
  exists r' s, pollOnce cfg w fuel tagId r = Some (PassCompleted r' s).
Proof. intros F. rewrite pollOnce_unfold, F. simpl. eauto. Qed.

Lemma pollOnce_threw_db (r r' : Run) (e : JsError) :
  pollOnce cfg w fuel tagId r = Some (PassThrew e r') -> db r' = db r.
Proof.
  rewrite pollOnce_unfold.
  destruct (fetchedBy cfg w fuel r) as [[os t' | e' t'] |]; simpl; intros H;
    try discriminate H.
  injection H as _ <-. reflexivity.
Qed.

Lemma pollOnce_completed_extends (r r' : Run) (s : Stats) :
  pollOnce cfg w fuel tagId r = Some (PassCompleted r' s) ->
  exists new, processed (db r') = (processed (db r) ++ new)%list.
Proof.
  rewrite pollOnce_unfold.
  destruct (fetchedBy cfg w fuel r) as [[os t' | e' t'] |]; simpl; intros H;
    try discriminate H.
  injection H as <- _. simpl.
  destruct (processOrders_extends cfg w tagId os
              (mkRun (db r) (S t') (tagRequests r), noStats)) as (_ & new & P).
  exists new. exact P.
Qed.


End PassFacts.

(** ** The ledger holds one row per source identifier *)






(** ** The watermark *)

Section WatermarkFacts.

Import Http Poller Ledger.

Lemma getState_upsertState (now : Z) (k : string) (v : Z) (rows : list StateRow) :
  getState k (upsertState now k v rows) = Some v.
Proof.
  induction rows as [|r rows IH]; simpl.
  - now rewrite String.eqb_refl.
  - destruct (key r =? k)%string eqn:E; simpl.
    + now rewrite String.eqb_refl.
    + now rewrite E.
Qed.

Lemma fetchPages_ticks (w : World) (since : Z) (fuel : nat) :
  forall t after results os t',
    fetchPages w since fuel t after results = Some (FetchReturned os t') ->
    (t < t')%nat.
Proof.
  induction fuel as [|fuel IH]; intros t after results os t'; simpl; [discriminate |].
  destruct (shopifyOrders w t since after) as [e | body]; [discriminate |].
  destruct (errors body); [discriminate |].
  destruct (match orders body with Some c => pageInfo c | None => None end) as [p|].
  - destruct (hasNextPage p).
    + intros H. apply IH in H. lia.
    + intros H. injection H as _ <-. lia.
  - intros H. injection H as _ <-. lia.
Qed.

Lemma sinceOf_ticks (cfg : Config) (w : World) (r : Run) :
  (ticks r < snd (sinceOf cfg w r))%nat.
Proof. unfold sinceOf. destruct (getState _ _); simpl; lia. Qed.

Lemma fetchedBy_ticks (cfg : Config) (w : World) (fuel : nat) (r : Run) os t' :
  fetchedBy cfg w fuel r = Some (FetchReturned os t') -> (ticks r < t')%nat.
Proof.
  unfold fetchedBy, fetchShopifyOrdersUpdatedSince. intros H.
  apply fetchPages_ticks in H. pose proof (sinceOf_ticks cfg w r). lia.
Qed.

End WatermarkFacts.

(** C3 (as the code has it).  After a pass that completes, the watermark is
    the clock reading taken when the fetch of the source orders has returned,
    before the first order is processed: an interaction later than the start
    of the pass, and no order's modification time.  It does not lie before the
    start of the pass, nor before the previous watermark, as long as the clock
    does not run backwards during the pass and the previous watermark does not
    lie after the start of the pass. *)
Theorem watermark_after_pass (cfg : Poller.Config) (w : Poller.World) (fuel : nat)
  (tagId : Z) (r r' : Poller.Run) (s : Poller.Stats) :
  Poller.pollOnce cfg w fuel tagId r = Some (Poller.PassCompleted r' s) ->
  exists os t',
    Ledger.fetchedBy cfg w fuel r = Some (Poller.FetchReturned os t') /\
    Poller.watermark (Poller.db r') = Some (Poller.clock w t') /\
    (Poller.ticks r < t')%nat /\
    (Ledger.clockMonotone w ->
       Poller.passStart w r <= Poller.clock w t' /\
       forall old,
         Poller.watermark (Poller.db r) = Some old ->
         old <= Poller.passStart w r ->
         old <= Poller.clock w t').
Proof.
  rewrite pollOnce_unfold.
  destruct (Ledger.fetchedBy cfg w fuel r) as [[os t' | e t'] |] eqn:F; simpl;
    intros H; try discriminate H.
  injection H as <- _. exists os, t'. split; [reflexivity |].
  pose proof (fetchedBy_ticks cfg w fuel r os t' F) as Lt.
  split; [| split; [exact Lt |]].
  - unfold Poller.watermark. simpl. apply getState_upsertState.
  - intros Mono.
    assert (P : Poller.passStart w r <= Poller.clock w t')
      by (apply Mono; lia).
    split; [exact P |]. intros old _ Hold. lia.
Qed.

Lemma watermark_after_pass_witness :
  Poller.watermark (Poller.db (Sample.afterPass Sample.allUp Sample.fresh))
  = Some 1700000003000.
Proof.
  assert (P : exists s, Poller.pollOnce Sample.cfg Sample.allUp 10 42 Sample.fresh
                        = Some (Poller.PassCompleted
                                  (Sample.afterPass Sample.allUp Sample.fresh) s))
    by (eexists; vm_compute; reflexivity).
  destruct P as (s & P).
  destruct (watermark_after_pass _ _ _ _ _ _ _ P) as (os & t' & F & W & _).
  rewrite W. vm_compute in F. injection F as _ <-. reflexivity.
Defined.

(** C3, as stated, fails: in this pass the "Poll started" line reads the
    clock at 1700000000000 and the watermark written is 1700000003000, the
    reading taken after the fetch has returned. *)
Lemma watermark_is_not_pass_start :
  Poller.pollOnce Sample.cfg Sample.allUp 10 42 Sample.fresh
  = Some (Poller.PassCompleted
            (Sample.afterPass Sample.allUp Sample.fresh)
            (Poller.mkStats 1 1 1 0 0 0)) /\
  Poller.passStart Sample.allUp Sample.fresh = 1700000000000 /\
  Poller.watermark (Poller.db (Sample.afterPass Sample.allUp Sample.fresh))
  <> Some (Poller.passStart Sample.allUp Sample.fresh).
Proof. split; [| split]; [vm_compute; reflexivity | reflexivity | vm_compute; discriminate]. Qed.

(** ** A failing source scan *)





(** ** Orders that are skipped, and lookups that fail *)

Section SkipFacts.

Import Http Poller Ledger.

Variables (cfg : Config) (w : World) (tagId : Z).

Lemma processOrder_already (r : Run) (s : Stats) (ord : ShopifyOrder) :
  isShopifyAddressIssue (Some ord) = true ->
  wasProcessed (id ord) (db r) = true ->
  processOrder cfg w tagId (r, s) (Some ord)
  = (r, countSkipped (countIssue (countInspected s))).
Proof.
  intros Issue Seen. unfold processOrder. simpl. now rewrite Issue, Seen.
Qed.

Lemma processOrder_no_number (r : Run) (s : Stats) (ord : ShopifyOrder) :
  isShopifyAddressIssue (Some ord) = true ->
  wasProcessed (id ord) (db r) = false ->
  orderNumberFromShopifyName (name ord) = "" ->
  processOrder cfg w tagId (r, s) (Some ord)
  = (r, countIssue (countInspected s)).
Proof.
  intros Issue Seen Num. unfold processOrder. simpl. now rewrite Issue, Seen, Num.
Qed.

Lemma processOrder_lookup_rejected (r : Run) (s : Stats) (ord : ShopifyOrder)
  (e : JsError) :
  isShopifyAddressIssue (Some ord) = true ->
  wasProcessed (id ord) (db r) = false ->
  JS.truthy (orderNumberFromShopifyName (name ord)) = true ->
  shipstationOrders w (ticks r) (orderNumberFromShopifyName (name ord)) = GetRejected e ->
  processOrder cfg w tagId (r, s) (Some ord)
  = (mkRun (markProcessed (clock w (S (ticks r)))
              (mkOutcome (id ord) (name ord) None "not_found"
                         (Some "Not found in ShipStation yet"))
              (db r))
           (S (S (ticks r))) (tagRequests r),
     countNotFound (countIssue (countInspected s))).
Proof.
  intros Issue Seen Num Rej. unfold processOrder, findShipStationOrder. simpl.
  now rewrite Issue, Seen, Num, Rej.
Qed.

Lemma scanOrder_already (tw : Tagger.World) (r : Tagger.Run) (s : Tagger.Stats)
  (o : Tagger.Order) (oid : Z) :
  JS.numOrNull (Tagger.orderId o) = Some oid ->
  Tagger.isAddressVerificationFailed (Some o) = true ->
  Tagger.wasProcessed oid (Tagger.db r) = true ->
  Tagger.scanOrder tw tagId r s (Some o)
  = Tagger.StepDone r
      (Tagger.mkStats (S (Tagger.foundFailed s)) (Tagger.newlyTagged s)
                      (S (Tagger.skippedAlready s))).
Proof.
  intros Id Failed Seen. unfold Tagger.scanOrder. now rewrite Id, Failed, Seen.
Qed.

End SkipFacts.

(** C4 (as the code has it).  When the ShipStation search for a new address
    issue is rejected, [findShipStationOrder] answers [null] and the order is
    handled as one that is not in ShipStation yet: a row with status
    [not_found] and the fixed note is appended, no tag request is sent, the
    not-found counter and not the error counter goes up, and the pass goes on
    with the remaining orders, at the end of which the row is still there. *)
Theorem lookup_failure_is_not_found (cfg : Poller.Config) (w : Poller.World)
  (tagId : Z) (r : Poller.Run) (s : Poller.Stats) (ord : Poller.ShopifyOrder)
  (rest : list (option Poller.ShopifyOrder)) (e : Http.JsError) :
  Poller.isShopifyAddressIssue (Some ord) = true ->
  Poller.wasProcessed (Poller.id ord) (Poller.db r) = false ->
  JS.truthy (Poller.orderNumberFromShopifyName (Poller.name ord)) = true ->
  Poller.shipstationOrders w (Poller.ticks r)
    (Poller.orderNumberFromShopifyName (Poller.name ord)) = Poller.GetRejected e ->
  let one := Poller.processOrder cfg w tagId (r, s) (Some ord) in
  let row := Poller.mkRow (Poller.autoincrement (Poller.db r) + 1) (Poller.id ord)
               (Poller.name ord) None "not_found"
               (Some "Not found in ShipStation yet")
               (Poller.clock w (S (Poller.ticks r)))
               (Poller.clock w (S (Poller.ticks r))) in
  Poller.processed (Poller.db (fst one)) = (Poller.processed (Poller.db r) ++ [row])%list /\
  Poller.tagRequests (fst one) = Poller.tagRequests r /\
  Poller.notInShipStation (snd one) = S (Poller.notInShipStation s) /\
  Poller.errorCount (snd one) = Poller.errorCount s /\
  Poller.processOrders cfg w tagId (r, s) (Some ord :: rest)
    = Poller.processOrders cfg w tagId one rest /\
  In row (Poller.processed
            (Poller.db (fst (Poller.processOrders cfg w tagId (r, s) (Some ord :: rest))))).
Proof.
  intros Issue Seen Num Rej one row.
  assert (E : one
              = (Poller.mkRun
                   (Poller.mkDB (Poller.state (Poller.db r))
                      (Poller.processed (Poller.db r) ++ [row])%list
                      (Poller.autoincrement (Poller.db r) + 1))
                   (S (S (Poller.ticks r))) (Poller.tagRequests r),
                 Poller.countNotFound (Poller.countIssue (Poller.countInspected s)))).
  { unfold one. rewrite (processOrder_lookup_rejected cfg w tagId r s ord e Issue Seen Num Rej).
    rewrite markProcessed_new by exact Seen. reflexivity. }
  assert (P : Poller.processed (Poller.db (fst one))
              = (Poller.processed (Poller.db r) ++ [row])%list)
    by (rewrite E; reflexivity).
  split; [exact P |].
  split; [rewrite E; reflexivity |].
  split; [rewrite E; reflexivity |].
  split; [rewrite E; reflexivity |].
  split; [reflexivity |].
  change (Poller.processOrders cfg w tagId (r, s) (Some ord :: rest))
    with (Poller.processOrders cfg w tagId one rest).
  destruct (processOrders_extends cfg w tagId rest one) as (_ & new & Q).
  rewrite Q, P, !in_app_iff. left. right. now left.
Qed.

Lemma lookup_failure_is_not_found_witness :
  map Poller.status
      (Poller.processed
         (Poller.db (fst (Poller.processOrder Sample.cfg Sample.lookupDown 42
                            (Sample.fresh, Poller.noStats) (Some Sample.order1001)))))
  = ["not_found"].
Proof.
  pose proof (lookup_failure_is_not_found Sample.cfg Sample.lookupDown 42
                Sample.fresh Poller.noStats Sample.order1001 [] Sample.timeout
                eq_refl eq_refl eq_refl eq_refl) as H.
  cbv zeta in H. destruct H as (P & _). rewrite P. reflexivity.
Defined.

(** C4, as stated, fails: the ShipStation search for order 1001 is rejected
    with a timeout, and the row the pass writes has status [not_found] and the
    fixed note, not status [error] and the error detail. *)
Lemma lookup_failure_not_recorded_as_error :
  Poller.shipstationOrders Sample.lookupDown 4 "1001" = Poller.GetRejected Sample.timeout /\
  map (fun row => (Poller.status row, Poller.note row))
      (Poller.processed (Poller.db (Sample.afterPass Sample.lookupDown Sample.fresh)))
  = [("not_found", Some "Not found in ShipStation yet")] /\
  map (fun row => (Poller.status row, Poller.note row))
      (Poller.processed (Poller.db (Sample.afterPass Sample.lookupDown Sample.fresh)))
  <> [("error", Some (Http.errorDetail Sample.timeout))].
Proof.
  split; [reflexivity | split; [vm_compute; reflexivity | vm_compute; discriminate]].
Qed.

(** ** A scan of the tagger only appends to its ledger *)

Section TaggerScan.

Import Http Tagger.

Variables (w : World) (tagId : Z).

Lemma extends_same_db (r r' : Run) : db r' = db r -> extends r r'.
Proof. intros E. exists []. now rewrite E, app_nil_r. Qed.

Lemma extends_refl (r : Run) : extends r r.
Proof. now apply extends_same_db. Qed.

Lemma extends_trans (r1 r2 r3 : Run) : extends r1 r2 -> extends r2 r3 -> extends r1 r3.
Proof.
  intros (n1 & E1) (n2 & E2). exists (n1 ++ n2)%list. now rewrite E2, E1, app_assoc.
Qed.

Lemma markProcessed_appends (now oid : Z) (num : option string) (st : string)
  (nt : option string) (d : DB) :
  wasProcessed oid d = false ->
  processed (markProcessed now oid num st nt d)
  = (processed d ++ [mkRow (autoincrement d + 1) oid num st nt now now])%list.
Proof. unfold wasProcessed, markProcessed. now intros ->. Qed.

Lemma scanOrder_extends (r : Run) (s : Stats) (o : option Order) :
  extends r (runOfStep (scanOrder w tagId r s o)).
Proof.
  unfold scanOrder. destruct o as [o|]; [| apply extends_refl].
  destruct (JS.numOrNull (orderId o)) as [oid|]; [| apply extends_refl].
  destruct (negb (isAddressVerificationFailed (Some o))); [apply extends_refl |].
  destruct (wasProcessed oid (db r)) eqn:Seen; [apply extends_refl |].
  destruct (addTagToOrder w (ticks r) oid tagId); simpl;
    eexists; simpl; apply (markProcessed_appends _ _ _ _ _ _ Seen).
Qed.

Lemma scanOrders_extends (os : list (option Order)) :
  forall r s, extends r (runOfStep (scanOrders w tagId r s os)).
Proof.
  induction os as [|o os IH]; intros r s; simpl; [apply extends_refl |].
  pose proof (scanOrder_extends r s o) as E.
  destruct (scanOrder w tagId r s o) as [r' s' | r']; simpl in *; [| exact E].
  exact (extends_trans _ _ _ E (IH r' s')).
Qed.

Lemma scanPages_extends (since : Z) (st : string) (fuel : nat) :
  forall page r s res,
    scanPages w tagId since st fuel page r s = Some res ->
    extends r (runOfScan res).
Proof.
  induction fuel as [|fuel IH]; intros page r s res; simpl; [discriminate |].
  destruct (listOrders w (ticks r) st since page) as [e | data].
  - intros H. injection H as <-. now apply extends_same_db.
  - destruct (orders data) as [[|o os] |].
    + intros H. injection H as <-. now apply extends_same_db.
    + pose proof (scanOrders_extends (o :: os)
                    (mkRun (db r) (S (ticks r)) (tagRequests r)) s) as E.
      destruct (scanOrders w tagId _ s (o :: os)) as [r' s' | r'].
      * destruct (totalPagesOf data <=? page).
        -- intros H. injection H as <-. exact E.
        -- intros H. apply IH in H. exact (extends_trans _ _ _ E H).
      * intros H. injection H as <-. exact E.
    + intros H. injection H as <-. now apply extends_same_db.
Qed.

Lemma scanStatuses_extends (since : Z) (fuel : nat) (sts : list string) :
  forall r s res,
    scanStatuses w tagId since fuel sts r s = Some res ->
    extends r (runOfScan res).
Proof.
  induction sts as [|st sts IH]; intros r s res; simpl.
  - intros H. injection H as <-. apply extends_refl.
  - destruct (scanPages w tagId since st fuel 1 r s) as [[r' s' | r'] |] eqn:P;
      [| | discriminate].
    + intros H. apply IH in H.
      exact (extends_trans _ _ _ (scanPages_extends _ _ _ _ _ _ _ P) H).
    + intros H. injection H as <-. exact (scanPages_extends _ _ _ _ _ _ _ P).
Qed.

Lemma scanAndTagAddressIssues_extends (cfg : Config) (fuel : nat) (r : Run)
  (res : ScanResult) :
  scanAndTagAddressIssues cfg w fuel tagId r = Some res ->
  exists new, processed (db (runOfScan res)) = (processed (db r) ++ new)%list.
Proof. unfold scanAndTagAddressIssues. intros H. exact (scanStatuses_extends _ _ _ _ _ _ H). Qed.

End TaggerScan.

(** C7.  An order with an address issue whose identifier already has a ledger
    row is skipped: in the poller and in the tagger alike the run (database,
    tag requests) is returned as it was, the issue counter and the
    skipped counter go up by one and the newly-tagged counter does not move.
    Over a whole pass of the poller, and over a whole scan of the tagger
    (completed or not), the rows present before it are the first rows after
    it, unchanged, whatever their status. *)
Theorem already_seen_is_skipped :
  (forall cfg w tagId r s ord,
     Poller.isShopifyAddressIssue (Some ord) = true ->
     Poller.wasProcessed (Poller.id ord) (Poller.db r) = true ->
     Poller.processOrder cfg w tagId (r, s) (Some ord)
     = (r, Poller.mkStats (S (Poller.inspected s)) (S (Poller.addressIssues s))
             (Poller.newlyTagged s) (Poller.notInShipStation s)
             (S (Poller.skippedAlready s)) (Poller.errorCount s))) /\
  (forall tw tagId r s o oid,
     JS.numOrNull (Tagger.orderId o) = Some oid ->
     Tagger.isAddressVerificationFailed (Some o) = true ->
     Tagger.wasProcessed oid (Tagger.db r) = true ->
     Tagger.scanOrder tw tagId r s (Some o)
     = Tagger.StepDone r
         (Tagger.mkStats (S (Tagger.foundFailed s)) (Tagger.newlyTagged s)
                         (S (Tagger.skippedAlready s)))) /\
  (forall cfg w fuel tagId r r' s,
     Poller.pollOnce cfg w fuel tagId r = Some (Poller.PassCompleted r' s) ->
     exists new,
       Poller.processed (Poller.db r') = (Poller.processed (Poller.db r) ++ new)%list) /\
  (forall cfg tw fuel tagId r res,
     Tagger.scanAndTagAddressIssues cfg tw fuel tagId r = Some res ->
     exists new,
       Tagger.processed (Tagger.db (Tagger.runOfScan res))
       = (Tagger.processed (Tagger.db r) ++ new)%list).
Proof.
  split; [| split; [| split]].
  - intros cfg w tagId r s ord Issue Seen.
    now rewrite (processOrder_already cfg w tagId r s ord Issue Seen).
  - intros tw tagId r s o oid. apply scanOrder_already.
  - intros cfg w fuel tagId r r' s. apply pollOnce_completed_extends.
  - intros cfg tw fuel tagId r res. apply scanAndTagAddressIssues_extends.
Qed.

Lemma already_seen_is_skipped_witness :
  Poller.processOrder Sample.cfg Sample.allUp 42 (Sample.seen, Poller.noStats)
    (Some Sample.order1001)
  = (Sample.seen, Poller.mkStats 1 1 0 0 1 0).
Proof.
  exact (proj1 already_seen_is_skipped Sample.cfg Sample.allUp 42 Sample.seen
           Poller.noStats Sample.order1001 eq_refl eq_refl).
Defined.

(** C10.  A new address issue whose order name leaves no business number
    (nothing but white space once the first "#" is removed) is passed over:
    the database and the tag requests are as before, the inspected and issue
    counters have counted it, and the newly-tagged, not-found, skipped and
    error counters have not moved. *)
Theorem empty_business_number_is_skipped (cfg : Poller.Config) (w : Poller.World)
  (tagId : Z) (r : Poller.Run) (s : Poller.Stats) (ord : Poller.ShopifyOrder) :
  Poller.isShopifyAddressIssue (Some ord) = true ->
  Poller.wasProcessed (Poller.id ord) (Poller.db r) = false ->
  Poller.orderNumberFromShopifyName (Poller.name ord) = "" ->
  let res := Poller.processOrder cfg w tagId (r, s) (Some ord) in
  fst res = r /\
  Poller.inspected (snd res) = S (Poller.inspected s) /\
  Poller.addressIssues (snd res) = S (Poller.addressIssues s) /\
  Poller.newlyTagged (snd res) = Poller.newlyTagged s /\
  Poller.notInShipStation (snd res) = Poller.notInShipStation s /\
  Poller.skippedAlready (snd res) = Poller.skippedAlready s /\
  Poller.errorCount (snd res) = Poller.errorCount s.
Proof.
  intros Issue Seen Num res. unfold res.
  rewrite (processOrder_no_number cfg w tagId r s ord Issue Seen Num). simpl.
  repeat split.
Qed.

Lemma empty_business_number_is_skipped_witness :
  Poller.orderNumberFromShopifyName (Poller.name Sample.orderNoNumber) = "" /\
  fst (Poller.processOrder Sample.cfg Sample.allUp 42 (Sample.fresh, Poller.noStats)
         (Some Sample.orderNoNumber)) = Sample.fresh.
Proof.
  split; [reflexivity |].
  exact (proj1 (empty_business_number_is_skipped Sample.cfg Sample.allUp 42
                  Sample.fresh Poller.noStats Sample.orderNoNumber
                  eq_refl eq_refl eq_refl)).
Defined.

(** ** [markProcessed] is an upsert *)

(** C8.  When a row with the given source identifier exists, [markProcessed]
    replaces it, in place, by a row with the new status, note, destination id
    and update time and with the old row id, source identifier and creation
    time; rows of other identifiers stay as they are.  (The poller stores a
    falsy note or destination id as NULL, and also replaces the order name;
    in the tagger the identifier is the destination id itself, and the order
    number is kept.)  When no such row exists, one row is appended whose
    creation and update times are both the time of the call. *)
Theorem markProcessed_is_upsert :
  (forall now o d row,
     In row (Poller.processed d) ->
     Poller.shopify_order_gid row = Poller.shopifyOrderGid o ->
     let d' := Poller.markProcessed now o d in
     let row' := Poller.mkRow (Poller.row_id row) (Poller.shopify_order_gid row)
                   (Poller.shopifyOrderName o)
                   (JS.numOrNull (Poller.shipstationOrderId o))
                   (Poller.outcomeStatus o)
                   (JS.strOrNull (Poller.outcomeNote o))
                   (Poller.created_at row) now in
     In row' (Poller.processed d') /\
     List.length (Poller.processed d') = List.length (Poller.processed d) /\
     (forall other,
        In other (Poller.processed d) ->
        Poller.shopify_order_gid other <> Poller.shopifyOrderGid o ->
        In other (Poller.processed d'))) /\
  (forall now o d,
     Poller.wasProcessed (Poller.shopifyOrderGid o) d = false ->
     Poller.processed (Poller.markProcessed now o d)
     = (Poller.processed d ++
        [Poller.mkRow (Poller.autoincrement d + 1) (Poller.shopifyOrderGid o)
           (Poller.shopifyOrderName o)
           (JS.numOrNull (Poller.shipstationOrderId o))
           (Poller.outcomeStatus o)
           (JS.strOrNull (Poller.outcomeNote o)) now now])%list) /\
  (forall now oid num st nt d row,
     In row (Tagger.processed d) ->
     Tagger.shipstation_order_id row = oid ->
     let d' := Tagger.markProcessed now oid num st nt d in
     let row' := Tagger.mkRow (Tagger.row_id row) oid (Tagger.order_number row)
                   st nt (Tagger.created_at row) now in
     In row' (Tagger.processed d') /\
     List.length (Tagger.processed d') = List.length (Tagger.processed d) /\
     (forall other,
        In other (Tagger.processed d) ->
        Tagger.shipstation_order_id other <> oid ->
        In other (Tagger.processed d'))).
Proof.
  split; [| split].
  - intros now o d row Hin G d' row'.
    assert (C : Poller.conflicts o row = true)
      by (unfold Poller.conflicts; now apply String.eqb_eq).
    assert (W : Poller.wasProcessed (Poller.shopifyOrderGid o) d = true).
    { apply wasProcessed_In. rewrite <- G. now apply in_map. }
    unfold d'. rewrite (markProcessed_existing _ _ _ W). simpl.
    split; [| split].
    + apply in_map_iff. exists row. now rewrite C.
    + apply length_map.
    + intros other Hother N. apply in_map_iff. exists other.
      split; [| exact Hother].
      unfold Poller.conflicts. apply String.eqb_neq in N. now rewrite N.
  - intros now o d W. now rewrite (markProcessed_new _ _ _ W).
  - intros now oid num st nt d row Hin G d' row'.
    assert (C : Tagger.conflicts oid row = true)
      by (unfold Tagger.conflicts; now apply Z.eqb_eq).
    assert (W : existsb (Tagger.conflicts oid) (Tagger.processed d) = true)
      by (apply existsb_exists; now exists row).
    unfold d', Tagger.markProcessed. rewrite W. simpl.
    split; [| split].
    + apply in_map_iff. exists row. rewrite C. unfold Tagger.updateRow.
      now rewrite G.
    + apply length_map.
    + intros other Hother N. apply in_map_iff. exists other.
      split; [| exact Hother].
      unfold Tagger.conflicts. apply Z.eqb_neq in N. now rewrite N.
Qed.

Lemma markProcessed_is_upsert_witness :
  let d' := Poller.markProcessed 1700000900000
              (Poller.mkOutcome "gid://shopify/Order/1" (Some "#1001") (Some 555)
                 "tagged" (Some "Tagged ADDRESS ISSUE (Shopify validation=ERROR)"))
              (Poller.db Sample.seen) in
  In (Poller.mkRow 1 "gid://shopify/Order/1" (Some "#1001") (Some 555) "tagged"
        (Some "Tagged ADDRESS ISSUE (Shopify validation=ERROR)")
        1690000000000 1700000900000)
     (Poller.processed d') /\
  List.length (Poller.processed d') = 1%nat.
Proof.
  pose proof (proj1 markProcessed_is_upsert 1700000900000
                (Poller.mkOutcome "gid://shopify/Order/1" (Some "#1001") (Some 555)
                   "tagged" (Some "Tagged ADDRESS ISSUE (Shopify validation=ERROR)"))
                (Poller.db Sample.seen)
                (Poller.mkRow 1 "gid://shopify/Order/1" (Some "#1001") None "not_found"
                   (Some "Not found in ShipStation yet") 1690000000000 1690000000000)
                (or_introl eq_refl) eq_refl) as H.
  cbv zeta in H. destruct H as (A & B & _). split; [exact A | exact B].
Defined.

(** ** Running a pass a second time *)

Section SecondPass.

Import Http Poller Ledger.

Variables (cfg : Config) (w : World) (tagId : Z).

Lemma wasProcessed_markProcessed (now : Z) (o : Outcome) (d : DB) :
  wasProcessed (shopifyOrderGid o) (markProcessed now o d) = true.
Proof.
  apply wasProcessed_In.
  destruct (wasProcessed (shopifyOrderGid o) d) eqn:W.
  - rewrite (markProcessed_existing _ _ _ W). simpl. rewrite update_keeps_gids.
    now apply wasProcessed_In.
  - rewrite (markProcessed_new _ _ _ W). simpl. rewrite map_app, in_app_iff.
    right. now left.
Qed.

Lemma wasProcessed_grows (gid : string) (d d' : DB) (new : list ProcessedRow) :
  processed d' = (processed d ++ new)%list ->
  wasProcessed gid d = true -> wasProcessed gid d' = true.
Proof.
  unfold wasProcessed. intros ->. rewrite existsb_app. intros ->. reflexivity.
Qed.

Lemma settled_grows (d d' : DB) (new : list ProcessedRow) (o : option ShopifyOrder) :
  processed d' = (processed d ++ new)%list ->
  settled d o = true -> settled d' o = true.
Proof.
  intros P. unfold settled. destruct (negb (isShopifyAddressIssue o)); simpl;
    [reflexivity |].
  destruct o as [ord|]; [| reflexivity].
  destruct (negb (JS.truthy _)); [now rewrite !orb_true_r |].
  rewrite !orb_false_r. apply (wasProcessed_grows _ _ _ _ P).
Qed.

Lemma processOrder_settles (acc : Run * Stats) (o : option ShopifyOrder) :
  settled (db (fst (processOrder cfg w tagId acc o))) o = true.
Proof.
  unfold settled.
  destruct (isShopifyAddressIssue o) eqn:Issue; simpl; [| reflexivity].
  destruct o as [ord|]; [| reflexivity].
  unfold processOrder. rewrite Issue. simpl.
  destruct (wasProcessed (id ord) (db (fst acc))) eqn:Seen; simpl;
    [now rewrite Seen |].
  destruct (JS.truthy (orderNumberFromShopifyName (name ord))) eqn:Num; simpl;
    [| now rewrite orb_true_r].
  rewrite orb_false_r.
  destruct (findShipStationOrder w (ticks (fst acc)) _) as [ss|];
    [destruct (shipstationAddTag w _ _ _) |]; simpl;
    match goal with
    | |- wasProcessed _ (markProcessed ?now ?out ?d) = true =>
        exact (wasProcessed_markProcessed now out d)
    end.
Qed.

Lemma processOrders_settles (os : list (option ShopifyOrder)) (acc : Run * Stats) :
  forall o, In o os -> settled (db (fst (processOrders cfg w tagId acc os))) o = true.
Proof.
  revert acc. induction os as [|o1 os IH]; intros acc o Hin; [destruct Hin |].
  change (processOrders cfg w tagId acc (o1 :: os))
    with (processOrders cfg w tagId (processOrder cfg w tagId acc o1) os).
  destruct Hin as [<- | Hin]; [| now apply IH].
  destruct (processOrders_extends cfg w tagId os (processOrder cfg w tagId acc o1))
    as (_ & new & P).
  apply (settled_grows _ _ _ _ P). apply processOrder_settles.
Qed.

(** A settled order changes neither the run nor the counters of outcomes. *)
Lemma processOrder_settled (acc : Run * Stats) (o : option ShopifyOrder) :
  settled (db (fst acc)) o = true ->
  fst (processOrder cfg w tagId acc o) = fst acc /\
  newlyTagged (snd (processOrder cfg w tagId acc o)) = newlyTagged (snd acc) /\
  notInShipStation (snd (processOrder cfg w tagId acc o)) = notInShipStation (snd acc) /\
  errorCount (snd (processOrder cfg w tagId acc o)) = errorCount (snd acc).
Proof.
  unfold settled, processOrder.
  destruct (isShopifyAddressIssue o); simpl; [| now repeat split].
  destruct o as [ord|]; [| now repeat split].
  destruct (wasProcessed (id ord) (db (fst acc))); simpl; [now repeat split |].
  destruct (JS.truthy (orderNumberFromShopifyName (name ord))); simpl;
    [discriminate | now repeat split].
Qed.

Lemma processOrders_settled (os : list (option ShopifyOrder)) (acc : Run * Stats) :
  (forall o, In o os -> settled (db (fst acc)) o = true) ->
  fst (processOrders cfg w tagId acc os) = fst acc /\
  newlyTagged (snd (processOrders cfg w tagId acc os)) = newlyTagged (snd acc) /\
  notInShipStation (snd (processOrders cfg w tagId acc os)) = notInShipStation (snd acc) /\
  errorCount (snd (processOrders cfg w tagId acc os)) = errorCount (snd acc).
Proof.
  revert acc. induction os as [|o os IH]; intros acc All; [now repeat split |].
  change (processOrders cfg w tagId acc (o :: os))
    with (processOrders cfg w tagId (processOrder cfg w tagId acc o) os).
  destruct (processOrder_settled acc o (All o (or_introl eq_refl))) as (E & T & N & R).
  destruct (IH (processOrder cfg w tagId acc o)) as (E' & T' & N' & R').
  - intros o' Hin. rewrite E. apply All. now right.
  - repeat split; congruence.
Qed.

End SecondPass.

(** C6.  Let a pass complete on the fetched orders [os]; put the watermark
    back to what it was and let a second pass fetch the same [os], whatever
    ShipStation answers this time.  The second pass completes, the ledger
    after it equals the ledger after the first pass row for row, it sends
    no tag request, and it counts nothing as newly tagged, not found or in
    error. *)
Theorem second_pass_changes_nothing (cfg : Poller.Config) (w1 w2 : Poller.World)
  (fuel1 fuel2 : nat) (tagId : Z) (r r1 : Poller.Run) (s1 : Poller.Stats)
  (os : list (option Poller.ShopifyOrder)) (t1 t2 : nat) :
  Poller.pollOnce cfg w1 fuel1 tagId r = Some (Poller.PassCompleted r1 s1) ->
  Ledger.fetchedBy cfg w1 fuel1 r = Some (Poller.FetchReturned os t1) ->
  Ledger.fetchedBy cfg w2 fuel2 (Ledger.holdWatermark r r1)
    = Some (Poller.FetchReturned os t2) ->
  exists r2 s2,
    Poller.pollOnce cfg w2 fuel2 tagId (Ledger.holdWatermark r r1)
      = Some (Poller.PassCompleted r2 s2) /\
    Poller.processed (Poller.db r2) = Poller.processed (Poller.db r1) /\
    Poller.tagRequests r2 = Poller.tagRequests r1 /\
    Poller.newlyTagged s2 = 0%nat /\
    Poller.notInShipStation s2 = 0%nat /\
    Poller.errorCount s2 = 0%nat.
Proof.
  intros P1 F1 F2.
  rewrite pollOnce_unfold, F1 in P1. simpl in P1. injection P1 as <- _.
  rewrite pollOnce_unfold, F2. simpl.
  set (start1 := (Poller.mkRun (Poller.db r) (S t1) (Poller.tagRequests r),
                  Poller.noStats)).
  set (done1 := Poller.processOrders cfg w1 tagId start1 os).
  set (start2 := (Poller.mkRun _ (S t2) _, Poller.noStats)).
  assert (All : forall o, In o os -> Ledger.settled (Poller.db (fst start2)) o = true).
  { intros o Hin.
    apply (settled_grows (Poller.db (fst done1)) _ []);
      [simpl; now rewrite app_nil_r |].
    now apply processOrders_settles. }
  destruct (processOrders_settled cfg w2 tagId os start2 All) as (E & T & N & R).
  do 2 eexists. split; [reflexivity |]. simpl. rewrite E, T, N, R. simpl.
  repeat split.
Qed.

Lemma second_pass_changes_nothing_witness :
  exists r2 s2,
    Poller.pollOnce Sample.cfg Sample.allUp 10 42
      (Ledger.holdWatermark Sample.fresh (Sample.afterPass Sample.lookupDown Sample.fresh))
      = Some (Poller.PassCompleted r2 s2) /\
    Poller.processed (Poller.db r2)
      = Poller.processed (Poller.db (Sample.afterPass Sample.lookupDown Sample.fresh)).
Proof.
  assert (P1 : Poller.pollOnce Sample.cfg Sample.lookupDown 10 42 Sample.fresh
               = Some (Poller.PassCompleted
                         (Sample.afterPass Sample.lookupDown Sample.fresh)
                         (Poller.mkStats 1 1 0 1 0 0)))
    by (vm_compute; reflexivity).
  assert (F1 : Ledger.fetchedBy Sample.cfg Sample.lookupDown 10 Sample.fresh
               = Some (Poller.FetchReturned [Some Sample.order1001] 3))
    by (vm_compute; reflexivity).
  assert (F2 : Ledger.fetchedBy Sample.cfg Sample.allUp 10
                 (Ledger.holdWatermark Sample.fresh
                    (Sample.afterPass Sample.lookupDown Sample.fresh))
               = Some (Poller.FetchReturned [Some Sample.order1001] 10))
    by (vm_compute; reflexivity).
  destruct (second_pass_changes_nothing _ _ _ _ _ 42 _ _ _ _ _ _ P1 F1 F2)
    as (r2 & s2 & P2 & L & _).
  exists r2, s2. split; [exact P2 | exact L].
Defined.

(** ** The poll timer *)

Lemma scheduled_pass_window (tm : Scheduler.Timing) (k : nat) (t : Z) :
  Scheduler.running tm (S k) t = true ->
  Scheduler.armed tm + Z.of_nat (S k) * Scheduler.POLL_INTERVAL_MS tm <= t
  < Scheduler.armed tm + Z.of_nat (S k) * Scheduler.POLL_INTERVAL_MS tm
    + Scheduler.duration tm (S k).
Proof.
  unfold Scheduler.running, Scheduler.passWindow.
  destruct (Scheduler.firstPassThrows tm); [discriminate |].
  rewrite andb_true_iff, Z.leb_le, Z.ltb_lt. tauto.
Qed.

Lemma first_pass_window (tm : Scheduler.Timing) (t : Z) :
  Scheduler.running tm 0 t = true ->
  Scheduler.began tm <= t < Scheduler.armed tm.
Proof.
  unfold Scheduler.running, Scheduler.passWindow, Scheduler.armed.
  rewrite andb_true_iff, Z.leb_le, Z.ltb_lt. tauto.
Qed.

Lemma later_pass_starts_later (tm : Scheduler.Timing) (j k : nat) :
  0 < Scheduler.POLL_INTERVAL_MS tm -> (j < k)%nat ->
  Z.of_nat (S j) * Scheduler.POLL_INTERVAL_MS tm + Scheduler.POLL_INTERVAL_MS tm
  <= Z.of_nat (S k) * Scheduler.POLL_INTERVAL_MS tm.
Proof. intros I Lt. nia. Qed.

(** C9 (as the code has it).  The first pass is awaited, so it has settled
    when the timer is set; after that the timer starts a pass at every
    interval without looking at the passes still running.  Two passes are
    never running at the same instant provided no timer-started pass takes
    longer than the poll interval. *)
Theorem passes_disjoint_when_within_interval (tm : Scheduler.Timing) (j k : nat) (t : Z) :
  0 < Scheduler.POLL_INTERVAL_MS tm ->
  (forall n, (0 < n)%nat -> Scheduler.duration tm n <= Scheduler.POLL_INTERVAL_MS tm) ->
  Scheduler.running tm j t = true ->
  Scheduler.running tm k t = true ->
  j = k.
Proof.
  intros I Short Rj Rk.
  destruct j as [|j], k as [|k]; [reflexivity | | |].
  - apply first_pass_window in Rj. apply scheduled_pass_window in Rk. nia.
  - apply scheduled_pass_window in Rj. apply first_pass_window in Rk. nia.
  - apply scheduled_pass_window in Rj. apply scheduled_pass_window in Rk.
    pose proof (Short (S j) (Nat.lt_0_succ j)) as Dj.
    pose proof (Short (S k) (Nat.lt_0_succ k)) as Dk.
    destruct (Nat.lt_trichotomy j k) as [Lt | [-> | Gt]]; [| reflexivity |].
    + pose proof (later_pass_starts_later tm j k I Lt). lia.
    + pose proof (later_pass_starts_later tm k j I Gt). lia.
Qed.

Lemma passes_disjoint_when_within_interval_witness :
  Scheduler.running Sample.quickPasses 2 601500 = true /\
  forall k, Scheduler.running Sample.quickPasses k 601500 = true -> 2%nat = k.
Proof.
  split; [reflexivity |]. intros k Rk.
  apply (passes_disjoint_when_within_interval Sample.quickPasses 2 k 601500).
  - reflexivity.
  - intros n _. simpl. lia.
  - reflexivity.
  - exact Rk.
Defined.

(** C9, as stated, fails: with a five-minute interval and a first scheduled
    pass that takes 300001 ms, that pass and the next one are both running at
    the instant the timer fires for the second time. *)
Lemma passes_overlap_when_one_outlasts_interval :
  Scheduler.POLL_INTERVAL_MS Sample.slowPass < Scheduler.duration Sample.slowPass 1 /\
  Scheduler.running Sample.slowPass 1 601000 = true /\
  Scheduler.running Sample.slowPass 2 601000 = true.
Proof. repeat split. Qed.

(** * Further properties of the two services *)

(** ** The [state] table *)

Section StateTable.

Import Poller Measure.

Lemma getState_upsertState_other (now : Z) (k k' : string) (v : Z)
  (rows : list StateRow) :
  k' <> k -> getState k' (upsertState now k v rows) = getState k' rows.
Proof.
  intros N. apply not_eq_sym in N.
  induction rows as [|r rows IH]; simpl.
  - apply String.eqb_neq in N. now rewrite N.
  - destruct (key r =? k)%string eqn:E; simpl.
    + apply String.eqb_eq in E. rewrite E.
      apply String.eqb_neq in N. now rewrite N.
    + now rewrite IH.
Qed.

Lemma upsertState_keys (now : Z) (k : string) (v : Z) (rows : list StateRow) :
  forall x, In x (map key (upsertState now k v rows)) -> x = k \/ In x (map key rows).
Proof.
  induction rows as [|r rows IH]; simpl; intros x.
  - intros [<- | []]. now left.
  - destruct (key r =? k)%string eqn:E; simpl.
    + apply String.eqb_eq in E. intros [<- | H]; [now left | right; now right].
    + intros [<- | H]; [right; now left |].
      destruct (IH x H) as [-> | H']; [now left | right; now right].
Qed.

Lemma upsertState_unique (now : Z) (k : string) (v : Z) (rows : list StateRow) :
  NoDup (map key rows) -> NoDup (map key (upsertState now k v rows)).
Proof.
  induction rows as [|r rows IH]; simpl; intros U.
  - constructor; [intros [] | constructor].
  - inversion U as [|? ? Hr Urest]; subst.
    destruct (key r =? k)%string eqn:E; simpl.
    + apply String.eqb_eq in E. rewrite <- E. now constructor.
    + constructor; [| now apply IH].
      intros H. destruct (upsertState_keys _ _ _ _ _ H) as [Ek | H'];
        [rewrite Ek, String.eqb_refl in E; discriminate E | now apply Hr].
Qed.

End StateTable.

(** X1.  Reading a key of the [state] table after [setState] gives the value
    just written for that key and the value held before for every other key;
    [setState] leaves the ledger as it is. *)
Theorem state_read_after_write (now : Z) (k k' : string) (v : Z) (d : Poller.DB) :
  Poller.getState k' (Poller.state (Poller.setState now k v d))
  = (if (k' =? k)%string then Some v else Poller.getState k' (Poller.state d)) /\
  Poller.processed (Poller.setState now k v d) = Poller.processed d.
Proof.
  split; [| reflexivity]. simpl.
  destruct (k' =? k)%string eqn:E.
  - apply String.eqb_eq in E. subst k'. apply getState_upsertState.
  - apply String.eqb_neq in E. now apply getState_upsertState_other.
Qed.

Lemma step_state_unique (r r' : Poller.Run) :
  Measure.stateUnique (Poller.db r) -> Ledger.Step r r' ->
  Measure.stateUnique (Poller.db r').
Proof.
  unfold Measure.stateUnique. intros U St.
  destruct St as [cfg w fuel tagId r r' s H | cfg w fuel tagId r r' e H | now o r].
  - rewrite pollOnce_unfold in H.
    destruct (Ledger.fetchedBy cfg w fuel r) as [[os t' | e' t'] |]; simpl in H;
      try discriminate H.
    injection H as <- _. simpl. apply upsertState_unique.
    destruct (processOrders_extends cfg w tagId os
                (Poller.mkRun (Poller.db r) (S t') (Poller.tagRequests r),
                 Poller.noStats)) as (St & _).
    rewrite St. exact U.
  - now rewrite (pollOnce_threw_db cfg w fuel tagId r r' e H).
  - simpl. unfold Poller.markProcessed.
    destruct (existsb _ _); exact U.
Qed.

(** X2.  The [state] table keeps one row per key: starting from a table with
    distinct keys (the empty one is), any sequence of completed passes,
    passes that throw and [markProcessed] calls leaves the keys distinct, and
    [setState] on its own does as well. *)
Theorem state_one_row_per_key (r r' : Poller.Run) :
  Measure.stateUnique (Poller.db r) ->
  Ledger.Reaches r r' ->
  Measure.stateUnique (Poller.db r') /\
  forall now k v, Measure.stateUnique (Poller.setState now k v (Poller.db r')).
Proof.
  intros U R.
  assert (U' : Measure.stateUnique (Poller.db r')).
  { induction R as [r | r1 r2 r3 R IH St]; [exact U |].
    apply (step_state_unique r2 r3); [now apply IH | exact St]. }
  split; [exact U' |].
  intros now k v. unfold Measure.stateUnique. simpl. now apply upsertState_unique.
Qed.

Lemma state_one_row_per_key_witness :
  Measure.stateUnique
    (Poller.db (Sample.afterPass Sample.allUp
                  (Sample.afterPass Sample.lookupDown Sample.fresh))).
Proof.
  assert (U : Measure.stateUnique (Poller.db Sample.fresh)) by constructor.
  assert (R : Ledger.Reaches Sample.fresh
                (Sample.afterPass Sample.allUp
                   (Sample.afterPass Sample.lookupDown Sample.fresh))).
  { eapply Ledger.ReachesNext; [eapply Ledger.ReachesNext; [apply Ledger.ReachesHere |] |].
    - eapply (Ledger.StepPassCompleted Sample.cfg Sample.lookupDown 10 42).
      vm_compute. reflexivity.
    - eapply (Ledger.StepPassCompleted Sample.cfg Sample.allUp 10 42).
      vm_compute. reflexivity. }
  exact (proj1 (state_one_row_per_key _ _ U R)).
Defined.

(** ** Recording and looking up *)

(** X3.  After [markProcessed] the recorded identifier is found by
    [wasProcessed], and every other identifier is found exactly when it was
    found before. *)
Theorem lookup_after_record (now : Z) (o : Poller.Outcome) (d : Poller.DB)
  (gid : string) :
  Poller.wasProcessed gid (Poller.markProcessed now o d)
  = (gid =? Poller.shopifyOrderGid o)%string || Poller.wasProcessed gid d.
Proof.
  apply eq_true_iff_eq. rewrite orb_true_iff, String.eqb_eq, !wasProcessed_In.
  destruct (Poller.wasProcessed (Poller.shopifyOrderGid o) d) eqn:W.
  - rewrite (markProcessed_existing _ _ _ W). simpl. rewrite update_keeps_gids.
    apply wasProcessed_In in W. split; [now right |].
    intros [-> | H]; [exact W | exact H].
  - rewrite (markProcessed_new _ _ _ W). simpl. rewrite map_app, in_app_iff. simpl.
    split.
    + intros [H | [<- | []]]; [now right | now left].
    + intros [-> | H]; [right; now left | now left].
Qed.

(** ** What the counters of a pass add up to *)

Section Accounting.

Import Http Poller Ledger Measure.

Variables (cfg : Config) (w : World) (tagId : Z).

Ltac new_row Seen :=
  unfold recordOutcome; simpl;
  rewrite markProcessed_new by exact Seen; simpl;
  rewrite ?length_app; simpl.

Lemma processOrder_accounts (acc : Run * Stats) (o : option ShopifyOrder) :
  let acc' := processOrder cfg w tagId acc o in
  inspected (snd acc') = S (inspected (snd acc)) /\
  addressIssues (snd acc') = (addressIssues (snd acc) + flagged o)%nat /\
  (outcomes (snd acc) <= outcomes (snd acc') <= outcomes (snd acc) + flagged o)%nat /\
  (List.length (processed (db (fst acc'))) + recorded (snd acc)
   = List.length (processed (db (fst acc))) + recorded (snd acc'))%nat /\
  (List.length (tagRequests (fst acc')) + requested (snd acc)
   = List.length (tagRequests (fst acc)) + requested (snd acc'))%nat.
Proof.
  unfold processOrder, flagged, outcomes, recorded, requested.
  destruct (isShopifyAddressIssue o) eqn:Issue; simpl; [| repeat split; lia].
  destruct o as [ord|]; [| discriminate Issue].
  destruct (wasProcessed (id ord) (db (fst acc))) eqn:Seen; simpl;
    [repeat split; lia |].
  destruct (JS.truthy (orderNumberFromShopifyName (name ord))); simpl;
    [| repeat split; lia].
  destruct (findShipStationOrder w (ticks (fst acc)) _) as [ss|];
    [destruct (shipstationAddTag w _ _ _) |];
    new_row Seen; repeat split; lia.
Qed.

Lemma processOrders_accounts (os : list (option ShopifyOrder)) (acc : Run * Stats) :
  let acc' := processOrders cfg w tagId acc os in
  inspected (snd acc') = (inspected (snd acc) + List.length os)%nat /\
  addressIssues (snd acc') = (addressIssues (snd acc) + issueCount os)%nat /\
  (outcomes (snd acc) <= outcomes (snd acc') <= outcomes (snd acc) + issueCount os)%nat /\
  (List.length (processed (db (fst acc'))) + recorded (snd acc)
   = List.length (processed (db (fst acc))) + recorded (snd acc'))%nat /\
  (List.length (tagRequests (fst acc')) + requested (snd acc)
   = List.length (tagRequests (fst acc)) + requested (snd acc'))%nat.
Proof.
  revert acc. induction os as [|o os IH]; intros acc;
    [cbv zeta; unfold processOrders, issueCount; simpl; repeat split; lia |].
  cbv zeta.
  change (processOrders cfg w tagId acc (o :: os))
    with (processOrders cfg w tagId (processOrder cfg w tagId acc o) os).
  destruct (processOrder_accounts acc o) as (A1 & A2 & A3 & A4 & A5).
  destruct (IH (processOrder cfg w tagId acc o)) as (B1 & B2 & B3 & B4 & B5).
  assert (C : issueCount (o :: os) = (flagged o + issueCount os)%nat).
  { unfold issueCount, flagged. simpl. now destruct (isShopifyAddressIssue o). }
  rewrite C. simpl List.length. repeat split; lia.
Qed.

(** The rows an order appends to the ledger. *)
Lemma processOrder_writes (acc : Run * Stats) (o : option ShopifyOrder) :
  exists new,
    processed (db (fst (processOrder cfg w tagId acc o)))
    = (processed (db (fst acc)) ++ new)%list /\
    Forall (writtenFor [o]) new.
Proof.
  unfold processOrder.
  destruct (isShopifyAddressIssue o) eqn:Issue; simpl;
    [| exists []; now rewrite app_nil_r].
  destruct o as [ord|]; [| discriminate Issue].
  destruct (wasProcessed (id ord) (db (fst acc))) eqn:Seen; simpl;
    [exists []; now rewrite app_nil_r |].
  destruct (JS.truthy (orderNumberFromShopifyName (name ord))) eqn:Num; simpl;
    [| exists []; now rewrite app_nil_r].
  assert (N : orderNumberFromShopifyName (name ord) <> "").
  { intros E. rewrite E in Num. discriminate Num. }
  destruct (findShipStationOrder w (ticks (fst acc)) _) as [ss|];
    [destruct (shipstationAddTag w _ _ _) |];
    new_row Seen; eexists; (split; [reflexivity |]);
    constructor; [| constructor | | constructor | | constructor];
    exists ord; simpl;
    (split; [now left |]); (split; [exact Issue |]); (split; [exact N |]);
    (split; [reflexivity |]); (split; [reflexivity |]); (split; [reflexivity |]).
  - right. right. now split.
  - left. split; [reflexivity | discriminate].
  - right. left. now repeat split.
Qed.

Lemma writtenFor_more (os os' : list (option ShopifyOrder)) (row : ProcessedRow) :
  (forall o, In o os -> In o os') -> writtenFor os row -> writtenFor os' row.
Proof.
  intros Sub (ord & Hin & Rest). exists ord. split; [now apply Sub | exact Rest].
Qed.

Lemma processOrders_writes (os : list (option ShopifyOrder)) (acc : Run * Stats) :
  exists new,
    processed (db (fst (processOrders cfg w tagId acc os)))
    = (processed (db (fst acc)) ++ new)%list /\
    Forall (writtenFor os) new.
Proof.
  revert acc. induction os as [|o os IH]; intros acc.
  - exists []. simpl. now rewrite app_nil_r.
  - change (processOrders cfg w tagId acc (o :: os))
      with (processOrders cfg w tagId (processOrder cfg w tagId acc o) os).
    destruct (processOrder_writes acc o) as (n1 & P1 & F1).
    destruct (IH (processOrder cfg w tagId acc o)) as (n2 & P2 & F2).
    exists (n1 ++ n2)%list. split; [now rewrite P2, P1, app_assoc |].
    apply Forall_app. split.
    + eapply Forall_impl; [| exact F1]. intros row. apply writtenFor_more.
      intros o' [<- | []]. now left.
    + eapply Forall_impl; [| exact F2]. intros row. apply writtenFor_more.
      intros o' Hin. now right.
Qed.

End Accounting.

(** X4.  The counters of a completed pass: every fetched order is inspected,
    the issue counter is the number of fetched orders the classifier flags,
    and the newly-tagged, not-found, skipped and error counters together never
    exceed the issue counter (they fall short by the flagged orders without a
    business number). *)
Theorem pass_counters (cfg : Poller.Config) (w : Poller.World) (fuel : nat)
  (tagId : Z) (r r' : Poller.Run) (s : Poller.Stats) :
  Poller.pollOnce cfg w fuel tagId r = Some (Poller.PassCompleted r' s) ->
  exists os t',
    Ledger.fetchedBy cfg w fuel r = Some (Poller.FetchReturned os t') /\
    Poller.inspected s = List.length os /\
    Poller.addressIssues s = Measure.issueCount os /\
    (Measure.outcomes s <= Poller.addressIssues s <= Poller.inspected s)%nat.
Proof.
  rewrite pollOnce_unfold.
  destruct (Ledger.fetchedBy cfg w fuel r) as [[os t' | e t'] |]; simpl;
    intros H; try discriminate H.
  injection H as _ <-. exists os, t'. split; [reflexivity |].
  destruct (processOrders_accounts cfg w tagId os
              (Poller.mkRun (Poller.db r) (S t') (Poller.tagRequests r),
               Poller.noStats)) as (A1 & A2 & A3 & _).
  cbn in A1, A2, A3.
  assert (L : (Measure.issueCount os <= List.length os)%nat)
    by apply filter_length_le.
  repeat split; lia.
Qed.

Lemma pass_counters_witness :
  exists os t',
    Ledger.fetchedBy Sample.cfg Sample.allUp 10 Sample.seen
      = Some (Poller.FetchReturned os t') /\
    List.length os = 1%nat /\ Measure.issueCount os = 1%nat.
Proof.
  assert (P : Poller.pollOnce Sample.cfg Sample.allUp 10 42 Sample.seen
              = Some (Poller.PassCompleted (Sample.afterPass Sample.allUp Sample.seen)
                        (Poller.mkStats 1 1 0 0 1 0)))
    by (vm_compute; reflexivity).
  destruct (pass_counters _ _ _ _ _ _ _ P) as (os & t' & F & I & A & _).
  exists os, t'. split; [exact F |]. simpl in I, A. now rewrite <- I, <- A.
Defined.

(** X5.  A completed pass adds to the ledger exactly as many rows as it
    counts newly tagged, not found and in error, and sends exactly as many
    tag requests as it counts newly tagged and in error; every row it adds
    belongs to a flagged order of the fetched list that has a business
    number, carries one of the statuses [tagged], [not_found], [error], and
    has a destination id only if it is [tagged]. *)
Theorem pass_ledger_growth (cfg : Poller.Config) (w : Poller.World) (fuel : nat)
  (tagId : Z) (r r' : Poller.Run) (s : Poller.Stats) :
  Poller.pollOnce cfg w fuel tagId r = Some (Poller.PassCompleted r' s) ->
  exists os t' new,
    Ledger.fetchedBy cfg w fuel r = Some (Poller.FetchReturned os t') /\
    Poller.processed (Poller.db r') = (Poller.processed (Poller.db r) ++ new)%list /\
    List.length new = Measure.recorded s /\
    Forall (Measure.writtenFor os) new /\
    List.length (Poller.tagRequests r')
    = (List.length (Poller.tagRequests r) + Measure.requested s)%nat.
Proof.
  rewrite pollOnce_unfold.
  destruct (Ledger.fetchedBy cfg w fuel r) as [[os t' | e t'] |]; simpl;
    intros H; try discriminate H.
  injection H as <- <-. simpl.
  set (start := (Poller.mkRun (Poller.db r) (S t') (Poller.tagRequests r),
                 Poller.noStats)).
  destruct (processOrders_accounts cfg w tagId os start) as (_ & _ & _ & A4 & A5).
  destruct (processOrders_writes cfg w tagId os start) as (new & P & F).
  exists os, t', new. split; [reflexivity |]. split; [exact P |].
  rewrite P, length_app in A4. cbn in A4, A5.
  repeat split; [lia | exact F | lia].
Qed.

Lemma pass_ledger_growth_witness :
  List.length (Poller.processed (Poller.db (Sample.afterPass Sample.allUp Sample.fresh)))
  = 1%nat.
Proof.
  assert (P : Poller.pollOnce Sample.cfg Sample.allUp 10 42 Sample.fresh
              = Some (Poller.PassCompleted (Sample.afterPass Sample.allUp Sample.fresh)
                        (Poller.mkStats 1 1 1 0 0 0)))
    by (vm_compute; reflexivity).
  destruct (pass_ledger_growth _ _ _ _ _ _ _ P) as (os & t' & new & _ & E & L & _).
  rewrite E, length_app, L. reflexivity.
Defined.

(** ** Tagging an order *)

Section Tagging.

Import Http Poller Ledger.

Variables (cfg : Config) (w : World) (tagId : Z).

Lemma processOrder_found (r : Run) (s : Stats) (ord : ShopifyOrder)
  (ss : ShipStationOrder) (others : list ShipStationOrder) :
  isShopifyAddressIssue (Some ord) = true ->
  wasProcessed (id ord) (db r) = false ->
  JS.truthy (orderNumberFromShopifyName (name ord)) = true ->
  shipstationOrders w (ticks r) (orderNumberFromShopifyName (name ord))
    = GetResolved (ss :: others) ->
  processOrder cfg w tagId (r, s) (Some ord)
  = match shipstationAddTag w (S (ticks r)) (orderId ss) tagId with
    | AddTagResolved =>
        (recordOutcome w
           (mkOutcome (id ord) (name ord) (Some (orderId ss)) "tagged"
                      (Some (taggedNote cfg (normalize (summaryOf (Some ord))))))
           (mkRun (db r) (S (S (ticks r)))
                  (tagRequests r ++ [(orderId ss, tagId)])%list),
         countTagged (countIssue (countInspected s)))
    | AddTagRejected e =>
        (recordOutcome w
           (mkOutcome (id ord) (name ord) None "error" (Some (errorDetail e)))
           (mkRun (db r) (S (S (ticks r)))
                  (tagRequests r ++ [(orderId ss, tagId)])%list),
         countError (countIssue (countInspected s)))
    end.
Proof.
  intros Issue Seen Num Found. unfold processOrder, findShipStationOrder.
  cbn [fst snd]. rewrite Issue, Seen, Num, Found. reflexivity.
Qed.

End Tagging.

(** X6.  A flagged order without a ledger row whose business number
    ShipStation knows is tagged through the first order ShipStation lists for
    that number: when the [addtag] call succeeds, one request (that order's
    id, the tag id) is sent and one row is appended with status [tagged], the
    order id as destination id (NULL when the id is 0) and a note naming the
    tag and the trimmed validation summary; the newly-tagged counter goes up
    by one. *)
Theorem tag_applied_is_recorded (cfg : Poller.Config) (w : Poller.World)
  (tagId : Z) (r : Poller.Run) (s : Poller.Stats) (ord : Poller.ShopifyOrder)
  (ss : Poller.ShipStationOrder) (others : list Poller.ShipStationOrder) :
  Poller.isShopifyAddressIssue (Some ord) = true ->
  Poller.wasProcessed (Poller.id ord) (Poller.db r) = false ->
  JS.truthy (Poller.orderNumberFromShopifyName (Poller.name ord)) = true ->
  Poller.shipstationOrders w (Poller.ticks r)
    (Poller.orderNumberFromShopifyName (Poller.name ord))
    = Poller.GetResolved (ss :: others) ->
  Poller.shipstationAddTag w (S (Poller.ticks r)) (Poller.orderId ss) tagId
    = Http.AddTagResolved ->
  let res := Poller.processOrder cfg w tagId (r, s) (Some ord) in
  Poller.processed (Poller.db (fst res))
  = (Poller.processed (Poller.db r) ++
     [Poller.mkRow (Poller.autoincrement (Poller.db r) + 1) (Poller.id ord)
        (Poller.name ord)
        (if Poller.orderId ss =? 0 then None else Some (Poller.orderId ss))
        "tagged"
        (Some ("Tagged " ++ Poller.ADDRESS_ISSUE_TAG_NAME cfg
               ++ " (Shopify validation="
               ++ JS.trim (JS.strOrEmpty (Poller.summaryOf (Some ord))) ++ ")")%string)
        (Poller.clock w (S (S (Poller.ticks r))))
        (Poller.clock w (S (S (Poller.ticks r))))])%list /\
  Poller.tagRequests (fst res)
  = (Poller.tagRequests r ++ [(Poller.orderId ss, tagId)])%list /\
  Poller.newlyTagged (snd res) = S (Poller.newlyTagged s) /\
  Poller.errorCount (snd res) = Poller.errorCount s.
Proof.
  intros Issue Seen Num Found Ok res. unfold res.
  rewrite (processOrder_found cfg w tagId r s ord ss others Issue Seen Num Found), Ok.
  unfold Poller.recordOutcome. cbn [fst snd Poller.db Poller.ticks Poller.tagRequests].
  rewrite markProcessed_new by exact Seen.
  repeat split.
Qed.

Lemma tag_applied_is_recorded_witness :
  map Poller.shipstation_order_id
      (Poller.processed
         (Poller.db (fst (Poller.processOrder Sample.cfg Sample.allUp 42
                            (Sample.fresh, Poller.noStats) (Some Sample.order1001)))))
  = [Some 555].
Proof.
  pose proof (tag_applied_is_recorded Sample.cfg Sample.allUp 42 Sample.fresh
                Poller.noStats Sample.order1001 (Poller.mkSSOrder 555) []
                eq_refl eq_refl eq_refl eq_refl eq_refl) as H.
  cbv zeta in H. destruct H as (P & _). rewrite P. reflexivity.
Defined.

(** X7.  When the [addtag] call is rejected, the request has been sent all
    the same, and one row is appended with status [error], no destination id
    and the error detail as note: the JSON text of the response body when the
    rejection carries one, the error message otherwise, NULL when that text
    is empty.  The error counter goes up by one, the newly-tagged counter
    does not move, and the order now has a ledger row. *)
Theorem tag_failure_is_recorded (cfg : Poller.Config) (w : Poller.World)
  (tagId : Z) (r : Poller.Run) (s : Poller.Stats) (ord : Poller.ShopifyOrder)
  (ss : Poller.ShipStationOrder) (others : list Poller.ShipStationOrder)
  (e : Http.JsError) :
  Poller.isShopifyAddressIssue (Some ord) = true ->
  Poller.wasProcessed (Poller.id ord) (Poller.db r) = false ->
  JS.truthy (Poller.orderNumberFromShopifyName (Poller.name ord)) = true ->
  Poller.shipstationOrders w (Poller.ticks r)
    (Poller.orderNumberFromShopifyName (Poller.name ord))
    = Poller.GetResolved (ss :: others) ->
  Poller.shipstationAddTag w (S (Poller.ticks r)) (Poller.orderId ss) tagId
    = Http.AddTagRejected e ->
  let res := Poller.processOrder cfg w tagId (r, s) (Some ord) in
  let detail := match Http.response_data e with
                | Some json => json
                | None => Http.message e
                end in
  Poller.processed (Poller.db (fst res))
  = (Poller.processed (Poller.db r) ++
     [Poller.mkRow (Poller.autoincrement (Poller.db r) + 1) (Poller.id ord)
        (Poller.name ord) None "error"
        (if (detail =? "")%string then None else Some detail)
        (Poller.clock w (S (S (Poller.ticks r))))
        (Poller.clock w (S (S (Poller.ticks r))))])%list /\
  Poller.tagRequests (fst res)
  = (Poller.tagRequests r ++ [(Poller.orderId ss, tagId)])%list /\
  Poller.errorCount (snd res) = S (Poller.errorCount s) /\
  Poller.newlyTagged (snd res) = Poller.newlyTagged s /\
  Poller.wasProcessed (Poller.id ord) (Poller.db (fst res)) = true.
Proof.
  intros Issue Seen Num Found Rej res detail. unfold res.
  rewrite (processOrder_found cfg w tagId r s ord ss others Issue Seen Num Found), Rej.
  unfold Poller.recordOutcome. cbn [fst snd Poller.db Poller.ticks Poller.tagRequests].
  split; [| split; [| split; [| split]]]; try reflexivity.
  - rewrite markProcessed_new by exact Seen.
    cbn [Poller.processed]. unfold Poller.insertedRow, JS.strOrNull, JS.truthy.
    cbn [Poller.shopifyOrderGid Poller.shopifyOrderName Poller.shipstationOrderId
         Poller.outcomeStatus Poller.outcomeNote JS.numOrNull].
    fold detail. change (Http.errorDetail e) with detail.
    now destruct (detail =? "")%string.
  - exact (wasProcessed_markProcessed _ _ _).
Qed.

Lemma tag_failure_is_recorded_witness :
  map (fun row => (Poller.status row, Poller.note row))
      (Poller.processed
         (Poller.db (fst (Poller.processOrder Sample.cfg Scenario.tagRefused 42
                            (Sample.fresh, Poller.noStats) (Some Sample.order1001)))))
  = [("error", Some "Too many requests")].
Proof.
  pose proof (tag_failure_is_recorded Sample.cfg Scenario.tagRefused 42 Sample.fresh
                Poller.noStats Sample.order1001 (Poller.mkSSOrder 555)
                [Poller.mkSSOrder 556] Scenario.refused
                eq_refl eq_refl eq_refl eq_refl eq_refl) as H.
  cbv zeta in H. destruct H as (P & _). rewrite P. reflexivity.
Defined.

(** X8.  An order either leaves the list of tag requests as it is, or it is
    a flagged order that had no ledger row and has one afterwards, and exactly
    one request, for the order ShipStation listed first, is added: no request
    is ever sent for an order that is not flagged or that the ledger knows. *)
Theorem tag_request_only_for_new_issue (cfg : Poller.Config) (w : Poller.World)
  (tagId : Z) (acc : Poller.Run * Poller.Stats) (o : option Poller.ShopifyOrder) :
  Poller.tagRequests (fst (Poller.processOrder cfg w tagId acc o))
    = Poller.tagRequests (fst acc) \/
  exists ord ss,
    o = Some ord /\
    Poller.isShopifyAddressIssue (Some ord) = true /\
    Poller.wasProcessed (Poller.id ord) (Poller.db (fst acc)) = false /\
    Poller.findShipStationOrder w (Poller.ticks (fst acc))
      (Poller.orderNumberFromShopifyName (Poller.name ord)) = Some ss /\
    Poller.tagRequests (fst (Poller.processOrder cfg w tagId acc o))
      = (Poller.tagRequests (fst acc) ++ [(Poller.orderId ss, tagId)])%list /\
    Poller.wasProcessed (Poller.id ord)
      (Poller.db (fst (Poller.processOrder cfg w tagId acc o))) = true.
Proof.
  unfold Poller.processOrder.
  destruct (Poller.isShopifyAddressIssue o) eqn:Issue; simpl; [| now left].
  destruct o as [ord|]; [| now left].
  destruct (Poller.wasProcessed (Poller.id ord) (Poller.db (fst acc))) eqn:Seen;
    [now left |].
  destruct (JS.truthy (Poller.orderNumberFromShopifyName (Poller.name ord)));
    simpl; [| now left].
  destruct (Poller.findShipStationOrder w (Poller.ticks (fst acc)) _) as [ss|] eqn:F;
    [| now left].
  right. exists ord, ss.
  destruct (Poller.shipstationAddTag w _ _ _); simpl;
    repeat split; try reflexivity; try assumption;
    exact (wasProcessed_markProcessed _ _ _).
Qed.

(** ** Where a pass starts scanning, and whether its fetch returns *)

(** X9.  A pass scans from the stored watermark when there is one, and from
    the first-run lookback (the clock reading minus the configured minutes)
    only when there is none.  After a completed pass the next pass, in
    whatever world and configuration, scans from exactly the reading the
    completed pass wrote: the windows of consecutive passes meet. *)
Theorem next_pass_resumes_at_watermark (cfg : Poller.Config) (w : Poller.World)
  (fuel : nat) (tagId : Z) (r r' : Poller.Run) (s : Poller.Stats) :
  Poller.pollOnce cfg w fuel tagId r = Some (Poller.PassCompleted r' s) ->
  fst (Poller.sinceOf cfg w r)
  = match Poller.watermark (Poller.db r) with
    | Some stored => stored
    | None =>
        Poller.clock w (S (Poller.ticks r))
        - Poller.LOOKBACK_MINUTES_ON_FIRST_RUN cfg * 60 * 1000
    end /\
  exists os t',
    Ledger.fetchedBy cfg w fuel r = Some (Poller.FetchReturned os t') /\
    forall cfg2 w2, fst (Poller.sinceOf cfg2 w2 r') = Poller.clock w t'.
Proof.
  intros P. split.
  - unfold Poller.sinceOf, Poller.watermark, Poller.isoMinutesAgo.
    now destruct (Poller.getState _ _).
  - rewrite pollOnce_unfold in P.
    destruct (Ledger.fetchedBy cfg w fuel r) as [[os t' | e t'] |]; simpl in P;
      try discriminate P.
    injection P as <- _. exists os, t'. split; [reflexivity |].
    intros cfg2 w2. unfold Poller.sinceOf. simpl.
    now rewrite getState_upsertState.
Qed.

Lemma next_pass_resumes_at_watermark_witness :
  fst (Poller.sinceOf Sample.cfg Sample.lookupDown
         (Sample.afterPass Sample.allUp Sample.fresh))
  = 1700000003000.
Proof.
  assert (P : Poller.pollOnce Sample.cfg Sample.allUp 10 42 Sample.fresh
              = Some (Poller.PassCompleted (Sample.afterPass Sample.allUp Sample.fresh)
                        (Poller.mkStats 1 1 1 0 0 0)))
    by (vm_compute; reflexivity).
  destruct (next_pass_resumes_at_watermark _ _ _ _ _ _ _ P) as (_ & os & t' & F & N).
  rewrite N. vm_compute in F. injection F as _ <-. reflexivity.
Defined.

Section Fetching.

Import Http Poller Ledger.

Lemma fetchPages_alwaysMore (w : World) (since : Z) (fuel : nat) :
  Measure.alwaysMore w ->
  forall t after results, fetchPages w since fuel t after results = None.
Proof.
  intros More. induction fuel as [|fuel IH]; intros t after results; simpl;
    [reflexivity |].
  destruct (More t since after) as (c & p & -> & Pi & Next). simpl.
  rewrite Pi, Next. apply IH.
Qed.

End Fetching.

(** X10.  When Shopify answers a chain of requests, each page but the last
    announcing a next page and none carrying an error, the fetch returns once
    as many pages are allowed as the chain has, or more: it has sent one
    request per page, each with the cursor the page before it gave, and it
    returns the orders of all pages, page after page, in the order received. *)
Theorem fetch_returns_all_pages (w : Poller.World) (since : Z) (t t' : nat)
  (after : option string) (pages : list (list (option Poller.ShopifyOrder)))
  (extra : nat) :
  Measure.Chain w since t after pages t' ->
  Poller.fetchPages w since (List.length pages + extra) t after []
    = Some (Poller.FetchReturned (List.concat pages) t') /\
  t' = (t + List.length pages)%nat.
Proof.
  intros C.
  assert (G : forall results,
             Poller.fetchPages w since (List.length pages + extra) t after results
             = Some (Poller.FetchReturned (results ++ List.concat pages)%list t') /\
             t' = (t + List.length pages)%nat).
  { induction C as [t after body R E L | t after body p pages t' R E Pi N C IH];
      intros results; simpl; rewrite R, E.
    - unfold Measure.lastPage, Measure.pageInfoOf in L.
      unfold Measure.edgesOf. rewrite app_nil_r.
      destruct (match Poller.orders body with
                | Some c => Poller.pageInfo c
                | None => None
                end) as [p|].
      + apply negb_true_iff in L. rewrite L. split; [reflexivity | lia].
      + split; [reflexivity | lia].
    - unfold Measure.pageInfoOf in Pi. rewrite Pi, N.
      destruct (IH (results ++ Measure.edgesOf body)%list) as (F & T).
      unfold Measure.edgesOf in *. rewrite F, <- app_assoc.
      split; [reflexivity | lia]. }
  exact (G []).
Qed.

Lemma fetch_returns_all_pages_witness :
  Poller.fetchPages Scenario.twoPages 0 5 0 None []
  = Some (Poller.FetchReturned [Some Sample.order1001; Some Sample.orderNoNumber] 2).
Proof.
  assert (C : Measure.Chain Scenario.twoPages 0 0 None
                [[Some Sample.order1001]; [Some Sample.orderNoNumber]] 2).
  { apply (Measure.ChainNext Scenario.twoPages 0 0 None
             (Poller.mkBody None
                (Some (Poller.mkConnection [Some Sample.order1001]
                         (Some (Poller.mkPageInfo true (Some "cursor-1"))))))
             (Poller.mkPageInfo true (Some "cursor-1"))
             [[Some Sample.orderNoNumber]] 2); try reflexivity.
    apply (Measure.ChainLast Scenario.twoPages 0 1 (Some "cursor-1")
             (Poller.mkBody None
                (Some (Poller.mkConnection [Some Sample.orderNoNumber]
                         (Some (Poller.mkPageInfo false None))))));
      reflexivity. }
  exact (proj1 (fetch_returns_all_pages _ _ _ _ _ _ 3 C)).
Defined.

(** X11.  The fetch has no page limit of its own: when Shopify answers every
    request without error and with [hasNextPage] set, the fetch requests one
    page after another and the pass never reaches its first order, however
    many pages are allowed. *)
Theorem fetch_follows_pages_without_limit (cfg : Poller.Config) (w : Poller.World)
  (fuel : nat) (tagId : Z) (r : Poller.Run) :
  Measure.alwaysMore w ->
  Poller.pollOnce cfg w fuel tagId r = None.
Proof.
  intros More. rewrite pollOnce_unfold.
  unfold Ledger.fetchedBy, Poller.fetchShopifyOrdersUpdatedSince.
  now rewrite (fetchPages_alwaysMore w _ fuel More).
Qed.

Lemma fetch_follows_pages_without_limit_witness :
  Poller.pollOnce Sample.cfg Scenario.endless 1000 42 Sample.fresh = None.
Proof.
  apply fetch_follows_pages_without_limit.
  intros t since after. do 2 eexists. split; [reflexivity |]. split; reflexivity.
Defined.

(** ** Business numbers *)

Section Trimming.

Import JS.

Lemma trimStart_empty_iff (s : string) :
  trimStart s = "" <-> allWhiteSpace s = true.
Proof.
  induction s as [|c r IH]; simpl; [tauto |].
  destruct (isWhiteSpace c); simpl; [exact IH |].
  split; discriminate.
Qed.

Lemma trimEnd_empty_iff (s : string) :
  trimEnd s = "" <-> allWhiteSpace s = true.
Proof.
  induction s as [|c r IH]; simpl; [tauto |].
  destruct (trimEnd r) as [|d r'] eqn:E.
  - destruct (isWhiteSpace c); simpl.
    + split; [intros _; now apply IH | reflexivity].
    + split; discriminate.
  - split; [discriminate |]. rewrite andb_true_iff. intros (_ & A).
    apply IH in A. discriminate A.
Qed.

Lemma allWhiteSpace_trimStart (s : string) :
  allWhiteSpace (trimStart s) = allWhiteSpace s.
Proof.
  induction s as [|c r IH]; simpl; [reflexivity |].
  destruct (isWhiteSpace c) eqn:W; simpl; [exact IH | now rewrite W].
Qed.

Lemma trim_empty_iff (s : string) : trim s = "" <-> allWhiteSpace s = true.
Proof.
  unfold trim. now rewrite trimEnd_empty_iff, allWhiteSpace_trimStart.
Qed.

(** A string that is empty or starts with a character that is not white space. *)
Lemma trimStart_head (s : string) :
  match trimStart s with
  | EmptyString => True
  | String c _ => isWhiteSpace c = false
  end.
Proof.
  induction s as [|c r IH]; simpl; [exact I |].
  destruct (isWhiteSpace c) eqn:W; [exact IH | exact W].
Qed.

Lemma trimEnd_keeps_head (c : ascii) (r : string) :
  isWhiteSpace c = false -> exists r', trimEnd (String c r) = String c r'.
Proof.
  intros W. simpl. destruct (trimEnd r); rewrite ?W; eauto.
Qed.

Lemma trimEnd_idempotent (s : string) : trimEnd (trimEnd s) = trimEnd s.
Proof.
  induction s as [|c r IH]; simpl; [reflexivity |].
  destruct (trimEnd r) as [|d r'] eqn:E.
  - destruct (isWhiteSpace c) eqn:W; simpl; [reflexivity | now rewrite W].
  - change (trimEnd (String c (String d r')))
      with (match trimEnd (String d r') with
            | EmptyString => if isWhiteSpace c then EmptyString else String c EmptyString
            | x => String c x
            end).
    now rewrite IH.
Qed.

Lemma trim_idempotent (s : string) : trim (trim s) = trim s.
Proof.
  unfold trim. pose proof (trimStart_head s) as H.
  destruct (trimStart s) as [|c r]; [reflexivity |].
  destruct (trimEnd_keeps_head c r H) as (r' & E). rewrite E.
  replace (trimStart (String c r')) with (String c r') by (simpl; now rewrite H).
  rewrite <- E. apply trimEnd_idempotent.
Qed.

Lemma trimStart_no_new_char (x : ascii) (s : string) :
  occurs x (trimStart s) = true -> occurs x s = true.
Proof.
  induction s as [|c r IH]; simpl; [trivial |].
  destruct (isWhiteSpace c); simpl; [| trivial].
  intros H. rewrite (IH H). apply orb_true_r.
Qed.

Lemma trimEnd_no_new_char (x : ascii) (s : string) :
  occurs x (trimEnd s) = true -> occurs x s = true.
Proof.
  induction s as [|c r IH]; simpl; [trivial |].
  destruct (trimEnd r) as [|d r'] eqn:E.
  - destruct (isWhiteSpace c); simpl; [discriminate |].
    rewrite orb_false_r. intros ->. reflexivity.
  - simpl in *. destruct (Ascii.eqb c x); simpl; [trivial | exact IH].
Qed.

Lemma trim_no_new_char (x : ascii) (s : string) :
  occurs x (trim s) = true -> occurs x s = true.
Proof.
  unfold trim. intros H. now apply trimStart_no_new_char, trimEnd_no_new_char.
Qed.

End Trimming.

(** X12.  The business number taken from an order name is empty exactly when
    the name is missing or, once its first "#" is removed, holds nothing but
    white space; and a business number never starts or ends with white
    space: trimming it again changes nothing. *)
Theorem business_number_empty_iff (name : option string) :
  (Poller.orderNumberFromShopifyName name = "" <->
   JS.allWhiteSpace (JS.removeFirst "#"%char (JS.strOrEmpty name)) = true) /\
  JS.trim (Poller.orderNumberFromShopifyName name)
    = Poller.orderNumberFromShopifyName name.
Proof.
  unfold Poller.orderNumberFromShopifyName. split;
    [apply trim_empty_iff | apply trim_idempotent].
Qed.

(** ** Start-up *)

Section BootFacts.

Import Boot.

Lemma named_iff (tagName : string) (t : Tag) :
  named tagName t = true <-> JS.sameModuloCase (JS.strOrEmpty (name t)) tagName.
Proof. unfold named, JS.sameModuloCase. apply String.eqb_eq. Qed.

Lemma find_first {A : Type} (f : A -> bool) (l : list A) (x : A) :
  find f l = Some x ->
  exists before rest,
    l = (before ++ x :: rest)%list /\ f x = true /\
    forall y, In y before -> f y = false.
Proof.
  induction l as [|a l IH]; simpl; [discriminate |].
  destruct (f a) eqn:Fa.
  - intros E. injection E as <-. exists [], l. repeat split; [exact Fa | intros y []].
  - intros E. destruct (IH E) as (before & rest & -> & Fx & B).
    exists (a :: before), rest. repeat split; [exact Fx |].
    intros y [<- | Hy]; [exact Fa | now apply B].
Qed.

Lemma In_pushIf (b : bool) (x y : string) (missing : list string) :
  In y (pushIf b x missing) <-> (b = true /\ y = x) \/ In y missing.
Proof.
  unfold pushIf. destruct b.
  - rewrite in_app_iff. simpl. intuition congruence.
  - intuition congruence.
Qed.

Lemma unset_iff (env : Env) (x : string) :
  unset env x = true <-> JS.strOrEmpty (env x) = "".
Proof.
  unfold unset, JS.truthy. rewrite negb_involutive. apply String.eqb_eq.
Qed.

Lemma blank_iff (env : Env) (x : string) :
  negb (JS.truthy (trimmedVar env x)) = true
  <-> JS.allWhiteSpace (JS.strOrEmpty (env x)) = true.
Proof.
  unfold trimmedVar, JS.truthy. rewrite negb_involutive, String.eqb_eq.
  apply trim_empty_iff.
Qed.

Lemma split_pieces_without_separator (c : ascii) (s : string) :
  forall piece, In piece (JS.split c s) -> JS.occurs c piece = false.
Proof.
  induction s as [|d r IH]; simpl; intros piece.
  - intros [<- | []]. reflexivity.
  - destruct (Ascii.eqb d c) eqn:E.
    + intros [<- | H]; [reflexivity | now apply IH].
    + destruct (JS.split c r) as [|p ps].
      * intros [<- | []]. simpl. now rewrite E.
      * intros [<- | H]; [| apply IH; now right].
        simpl. rewrite E. apply IH. now left.
Qed.

End BootFacts.

(** X13.  The tag lookup is case-insensitive and takes the first match: the
    id it returns is that of the first tag of the list whose name equals the
    wanted name up to letter case, it returns nothing exactly when no tag of
    the list has such a name (a tag without a name counts as named by the
    empty string), and two wanted names that differ only in case give the
    same answer. *)
Theorem tag_lookup_by_name (tags : list Boot.Tag) (tagName : string) :
  (forall tag,
     Boot.getTagId tags tagName = Some tag ->
     exists before t rest,
       tags = (before ++ t :: rest)%list /\
       Boot.tagId t = tag /\
       JS.sameModuloCase (JS.strOrEmpty (Boot.name t)) tagName /\
       forall u, In u before ->
                 ~ JS.sameModuloCase (JS.strOrEmpty (Boot.name u)) tagName) /\
  (Boot.getTagId tags tagName = None <->
   forall t, In t tags -> ~ JS.sameModuloCase (JS.strOrEmpty (Boot.name t)) tagName) /\
  (forall other,
     JS.sameModuloCase tagName other ->
     Boot.getTagId tags other = Boot.getTagId tags tagName).
Proof.
  split; [| split].
  - intros tag. unfold Boot.getTagId.
    destruct (find (Boot.named tagName) tags) as [t|] eqn:F; [| discriminate].
    intros E. injection E as <-.
    destruct (find_first _ _ _ F) as (before & rest & -> & Ft & B).
    exists before, t, rest. repeat split; [now apply named_iff |].
    intros u Hu Same. apply named_iff in Same. rewrite (B u Hu) in Same.
    discriminate Same.
  - unfold Boot.getTagId.
    destruct (find (Boot.named tagName) tags) as [t|] eqn:F.
    + split; [discriminate |]. intros All. exfalso.
      apply find_some in F. destruct F as (Hin & Ft).
      apply (All t Hin). now apply named_iff.
    + split; [| reflexivity]. intros _ t Hin Same.
      apply named_iff in Same. rewrite (find_none _ _ F t Hin) in Same.
      discriminate Same.
  - intros other Same. unfold Boot.getTagId.
    replace (find (Boot.named other) tags) with (find (Boot.named tagName) tags);
      [reflexivity |].
    induction tags as [|t tags IH]; simpl; [reflexivity |].
    unfold Boot.named at 1 3. unfold JS.sameModuloCase in Same. rewrite Same.
    now rewrite IH.
Qed.

Lemma tag_lookup_by_name_witness :
  Boot.getTagId [Boot.mkTag (Some "Rush") 11; Boot.mkTag (Some "Address Issue") 42;
                 Boot.mkTag (Some "ADDRESS ISSUE") 43] "address issue"
  = Boot.getTagId [Boot.mkTag (Some "Rush") 11; Boot.mkTag (Some "Address Issue") 42;
                   Boot.mkTag (Some "ADDRESS ISSUE") 43] "ADDRESS ISSUE".
Proof.
  apply (proj2 (proj2 (tag_lookup_by_name _ "ADDRESS ISSUE"))). reflexivity.
Defined.

(** X14.  What [missingEnvVars] reports: a Shopify variable is missing when
    it is unset or holds nothing but white space, a ShipStation variable only
    when it is unset or empty, and no other name is ever reported; for the
    tagger's [requireEnv] the same holds of the two ShipStation variables. *)
Theorem missing_variables_reported (env : Boot.Env) (x : string) :
  (In x (Boot.missingEnvVars env) <->
   (x = "SHOPIFY_SHOP_DOMAIN" /\ JS.allWhiteSpace (JS.strOrEmpty (env x)) = true) \/
   (x = "SHOPIFY_ADMIN_ACCESS_TOKEN" /\ JS.allWhiteSpace (JS.strOrEmpty (env x)) = true) \/
   (x = "SHIPSTATION_API_KEY" /\ JS.strOrEmpty (env x) = "") \/
   (x = "SHIPSTATION_API_SECRET" /\ JS.strOrEmpty (env x) = "")) /\
  (In x (Boot.requireEnv env) <->
   (x = "SHIPSTATION_API_KEY" /\ JS.strOrEmpty (env x) = "") \/
   (x = "SHIPSTATION_API_SECRET" /\ JS.strOrEmpty (env x) = "")).
Proof.
  unfold Boot.missingEnvVars, Boot.requireEnv.
  rewrite !In_pushIf, !unset_iff, !blank_iff. simpl.
  split; split.
  - intros [(H & ->) | [(H & ->) | [(H & ->) | [(H & ->) | []]]]]; tauto.
  - intros [(-> & H) | [(-> & H) | [(-> & H) | (-> & H)]]]; tauto.
  - intros [(H & ->) | [(H & ->) | []]]; tauto.
  - intros [(-> & H) | (-> & H)]; tauto.
Qed.

(** X15.  [start] sets the poll timer exactly when no variable is missing,
    the tag list is received and holds a tag of the configured name with a
    non-zero id, and the first pass, run with that id, completes; the run it
    then holds is the one the first pass left.  In every other case in which
    [start] comes to an end the process exits with code 1 and the database is
    as [start] found it. *)
Theorem start_sets_timer_iff (env : Boot.Env) (cfg : Poller.Config)
  (tags : Boot.TagsResult) (w : Poller.World) (fuel : nat) (d : Poller.DB) :
  (forall r tag,
     Boot.start env cfg tags w fuel d = Some (Boot.TimerSet r tag) <->
     Boot.missingEnvVars env = [] /\
     exists ts s,
       tags = Boot.TagsResolved ts /\
       Boot.getTagId ts (Poller.ADDRESS_ISSUE_TAG_NAME cfg) = Some tag /\
       tag <> 0 /\
       Poller.pollOnce cfg w fuel tag (Poller.mkRun d 0 [])
         = Some (Poller.PassCompleted r s)) /\
  (forall code d',
     Boot.start env cfg tags w fuel d = Some (Boot.Exited code d') ->
     code = 1 /\ d' = d).
Proof.
  unfold Boot.start. split.
  - intros r tag. split.
    + destruct (Boot.missingEnvVars env) as [|m ms]; [| discriminate].
      destruct tags as [e | ts]; [discriminate |].
      destruct (Boot.getTagId ts _) as [found|] eqn:G; simpl; [| discriminate].
      destruct (found =? 0) eqn:Z0; [discriminate |].
      destruct (Poller.pollOnce cfg w fuel found _) as [[r1 s1 | e1 r1] |] eqn:P;
        try discriminate.
      intros E. injection E as <- <-. split; [reflexivity |].
      exists ts, s1. repeat split; try assumption. now apply Z.eqb_neq.
    + intros (M & ts & s & -> & G & N & P). rewrite M, G. simpl.
      apply Z.eqb_neq in N. now rewrite N, P.
  - intros code d'. destruct (Boot.missingEnvVars env) as [|m ms].
    + destruct tags as [e | ts].
      * intros E. now injection E as <- <-.
      * destruct (JS.numOrNull (Boot.getTagId ts _)) as [tag|].
        -- destruct (Poller.pollOnce cfg w fuel tag _) as [[r1 s1 | e1 r1] |] eqn:P;
             try discriminate.
           intros E. injection E as <- <-. split; [reflexivity |].
           exact (pollOnce_threw_db cfg w fuel tag _ _ _ P).
        -- intros E. now injection E as <- <-.
    + intros E. now injection E as <- <-.
Qed.

Lemma start_sets_timer_iff_witness :
  Boot.start Scenario.envSet Sample.cfg (Boot.TagsResolved Scenario.accountTags)
    Sample.allUp 10 Poller.initDatabase
  = Some (Boot.TimerSet (Sample.afterPass Sample.allUp Sample.fresh) 42).
Proof.
  apply (proj1 (start_sets_timer_iff Scenario.envSet Sample.cfg
                  (Boot.TagsResolved Scenario.accountTags) Sample.allUp 10
                  Poller.initDatabase)).
  split; [reflexivity |].
  exists Scenario.accountTags, (Poller.mkStats 1 1 1 0 0 0).
  split; [reflexivity |]. split; [reflexivity |]. split; [discriminate |].
  vm_compute. reflexivity.
Defined.

(** X16.  Every order status the tagger scans is non-empty, has no white
    space at either end and contains no comma; when [ORDER_STATUSES] is unset
    or empty the statuses are [awaiting_shipment] and [on_hold]. *)
Theorem order_statuses_are_clean (env : Boot.Env) :
  (forall st,
     In st (Boot.orderStatuses env) ->
     st <> "" /\ JS.trim st = st /\ JS.occurs ","%char st = false) /\
  (JS.strOrEmpty (env "ORDER_STATUSES") = "" ->
   Boot.orderStatuses env = ["awaiting_shipment"; "on_hold"]).
Proof.
  unfold Boot.orderStatuses. split.
  - intros st Hin. apply filter_In in Hin. destruct Hin as (Hin & T).
    apply in_map_iff in Hin. destruct Hin as (piece & <- & Hp).
    split; [| split].
    + intros E. rewrite E in T. discriminate T.
    + apply trim_idempotent.
    + pose proof (split_pieces_without_separator _ _ _ Hp) as N.
      destruct (JS.occurs ","%char (JS.trim piece)) eqn:O; [| reflexivity].
      apply trim_no_new_char in O. congruence.
  - intros E. unfold JS.strOrDefault, JS.strOrNull.
    destruct (env "ORDER_STATUSES") as [v|]; [| reflexivity].
    simpl in E. subst v. reflexivity.
Qed.

Lemma order_statuses_are_clean_witness :
  Boot.orderStatuses (fun _ => Some "") = ["awaiting_shipment"; "on_hold"].
Proof. exact (proj2 (order_statuses_are_clean (fun _ => Some "")) eq_refl). Defined.

(** ** The tagger's scan *)

Section TaggerInvariant.

Import Http Tagger.

(** A property [P] of run and counters that every order keeps, with the
    weaker [Q] of the run alone for the case that the scan throws. *)
Variables (P : Run -> Stats -> Prop) (Q : Run -> Prop).
Variables (w : World) (tagId : Z).

Hypothesis P_step :
  forall r s o, P r s ->
    match scanOrder w tagId r s o with
    | StepDone r' s' => P r' s'
    | StepThrew r' => Q r'
    end.
Hypothesis P_ticks :
  forall r s t, P r s -> P (mkRun (db r) t (tagRequests r)) s.
Hypothesis P_weaken : forall r s, P r s -> Q r.

Lemma scanOrders_keeps (os : list (option Order)) :
  forall r s, P r s ->
    match scanOrders w tagId r s os with
    | StepDone r' s' => P r' s'
    | StepThrew r' => Q r'
    end.
Proof.
  induction os as [|o os IH]; intros r s H; simpl; [exact H |].
  pose proof (P_step r s o H) as St.
  destruct (scanOrder w tagId r s o) as [r' s' | r']; [now apply IH | exact St].
Qed.

Lemma scanPages_keeps (since : Z) (st : string) (fuel : nat) :
  forall page r s res, P r s ->
    scanPages w tagId since st fuel page r s = Some res ->
    match res with
    | ScanCompleted r' s' => P r' s'
    | ScanThrew r' => Q r'
    end.
Proof.
  induction fuel as [|fuel IH]; intros page r s res H; simpl; [discriminate |].
  pose proof (P_ticks r s (S (ticks r)) H) as H0.
  destruct (listOrders w (ticks r) st since page) as [e | data].
  - intros E. injection E as <-. exact (P_weaken _ _ H0).
  - destruct (orders data) as [[|o os] |].
    + intros E. injection E as <-. exact H0.
    + pose proof (scanOrders_keeps (o :: os) _ s H0) as K.
      destruct (scanOrders w tagId _ s (o :: os)) as [r' s' | r'].
      * destruct (totalPagesOf data <=? page).
        -- intros E. injection E as <-. exact K.
        -- now apply IH.
      * intros E. injection E as <-. exact K.
    + intros E. injection E as <-. exact H0.
Qed.

Lemma scanStatuses_keeps (since : Z) (fuel : nat) (sts : list string) :
  forall r s res, P r s ->
    scanStatuses w tagId since fuel sts r s = Some res ->
    match res with
    | ScanCompleted r' s' => P r' s'
    | ScanThrew r' => Q r'
    end.
Proof.
  induction sts as [|st sts IH]; intros r s res H; simpl.
  - intros E. injection E as <-. exact H.
  - destruct (scanPages w tagId since st fuel 1 r s) as [[r' s' | r'] |] eqn:Pg;
      [| | discriminate].
    + apply IH. exact (scanPages_keeps _ _ _ _ _ _ _ H Pg).
    + intros E. injection E as <-. exact (scanPages_keeps _ _ _ _ _ _ _ H Pg).
Qed.

Lemma scanAndTagAddressIssues_keeps (cfg : Config) (fuel : nat) (r : Run)
  (res : ScanResult) :
  P r noStats ->
  scanAndTagAddressIssues cfg w fuel tagId r = Some res ->
  match res with
  | ScanCompleted r' s' => P r' s'
  | ScanThrew r' => Q r'
  end.
Proof.
  intros H. unfold scanAndTagAddressIssues. apply scanStatuses_keeps.
  exact (P_ticks r noStats _ H).
Qed.

End TaggerInvariant.

Section TaggerLedger.

Import Http Tagger Measure.

Lemma tagger_wasProcessed_In (oid : Z) (d : DB) :
  wasProcessed oid d = true <-> In oid (map shipstation_order_id (processed d)).
Proof.
  unfold wasProcessed, conflicts. rewrite existsb_exists, in_map_iff. split.
  - intros (r & Hin & E). apply Z.eqb_eq in E. now exists r.
  - intros (r & E & Hin). exists r. split; [exact Hin | now apply Z.eqb_eq].
Qed.

Lemma tagger_markProcessed_ids (now oid : Z) (num : option string) (st : string)
  (nt : option string) (d : DB) :
  map shipstation_order_id (processed (markProcessed now oid num st nt d))
  = if wasProcessed oid d
    then map shipstation_order_id (processed d)
    else (map shipstation_order_id (processed d) ++ [oid])%list.
Proof.
  unfold markProcessed, wasProcessed. destruct (existsb (conflicts oid) (processed d)).
  - simpl. rewrite map_map. apply map_ext. intros r. now destruct (conflicts oid r).
  - simpl. now rewrite map_app.
Qed.

Lemma tagger_markProcessed_unique (now oid : Z) (num : option string) (st : string)
  (nt : option string) (d : DB) :
  taggerUnique d -> taggerUnique (markProcessed now oid num st nt d).
Proof.
  unfold taggerUnique. intros U. rewrite tagger_markProcessed_ids.
  destruct (wasProcessed oid d) eqn:W; [exact U |].
  apply NoDup_snoc; [exact U |]. intros Hin. apply tagger_wasProcessed_In in Hin.
  congruence.
Qed.

Lemma scanOrder_unique (w : World) (tagId : Z) (r : Run) (s : Stats)
  (o : option Order) :
  taggerUnique (db r) ->
  match scanOrder w tagId r s o with
  | StepDone r' _ => taggerUnique (db r')
  | StepThrew r' => taggerUnique (db r')
  end.
Proof.
  intros U. unfold scanOrder. destruct o as [o|]; [| exact U].
  destruct (JS.numOrNull (orderId o)) as [oid|]; [| exact U].
  destruct (negb (isAddressVerificationFailed (Some o))); [exact U |].
  destruct (wasProcessed oid (db r)); [exact U |].
  destruct (addTagToOrder w (ticks r) oid tagId); simpl;
    now apply tagger_markProcessed_unique.
Qed.

Lemma scanOrder_counted (rows0 reqs0 : nat) (w : World) (tagId : Z) (r : Run)
  (s : Stats) (o : option Order) :
  counted rows0 reqs0 r s ->
  match scanOrder w tagId r s o with
  | StepDone r' s' => counted rows0 reqs0 r' s'
  | StepThrew r' => balanced rows0 reqs0 r'
  end.
Proof.
  unfold counted, balanced. intros (B & F & T). unfold scanOrder.
  destruct o as [o|]; [| exact B].
  destruct (JS.numOrNull (orderId o)) as [oid|]; [| now repeat split].
  destruct (negb (isAddressVerificationFailed (Some o))); [now repeat split |].
  destruct (wasProcessed oid (db r)) eqn:Seen; simpl; [repeat split; lia |].
  destruct (addTagToOrder w (ticks r) oid tagId); simpl;
    rewrite (markProcessed_appends _ _ _ _ _ _ Seen), !length_app; simpl;
    repeat split; lia.
Qed.

End TaggerLedger.

(** X17.  The tagger's ledger keeps one row per ShipStation order id: from a
    table that satisfies its UNIQUE constraint, a scan that completes or
    throws, and any [markProcessed] call after it, leaves the order ids of
    the rows distinct. *)
Theorem tagger_one_row_per_order (cfg : Tagger.Config) (w : Tagger.World)
  (fuel : nat) (tagId : Z) (r : Tagger.Run) (res : Tagger.ScanResult) :
  Measure.taggerUnique (Tagger.db r) ->
  Tagger.scanAndTagAddressIssues cfg w fuel tagId r = Some res ->
  Measure.taggerUnique (Tagger.db (Tagger.runOfScan res)) /\
  forall now oid num st nt,
    Measure.taggerUnique
      (Tagger.markProcessed now oid num st nt (Tagger.db (Tagger.runOfScan res))).
Proof.
  intros U Sc.
  assert (U' : Measure.taggerUnique (Tagger.db (Tagger.runOfScan res))).
  { pose proof (scanAndTagAddressIssues_keeps
                  (fun r _ => Measure.taggerUnique (Tagger.db r))
                  (fun r => Measure.taggerUnique (Tagger.db r))
                  w tagId
                  (fun r s o H => scanOrder_unique w tagId r s o H)
                  (fun r s t H => H) (fun r s H => H)
                  cfg fuel r res U Sc) as K.
    destruct res; exact K. }
  split; [exact U' |]. intros now oid num st nt.
  now apply tagger_markProcessed_unique.
Qed.

(** X18.  In the tagger every tag request leaves exactly one ledger row and
    no row is written without a request: over a scan, completed or thrown,
    as many rows as requests are added.  When the scan completes, the orders
    it counts as found are the rows added plus the orders skipped, and the
    orders it counts as newly tagged are at most the rows added (the rest of
    the rows are the failures, which have no counter of their own). *)
Theorem tagger_rows_match_requests (cfg : Tagger.Config) (w : Tagger.World)
  (fuel : nat) (tagId : Z) (r : Tagger.Run) (res : Tagger.ScanResult) :
  Tagger.scanAndTagAddressIssues cfg w fuel tagId r = Some res ->
  let rows0 := List.length (Tagger.processed (Tagger.db r)) in
  let reqs0 := List.length (Tagger.tagRequests r) in
  let rows1 := List.length (Tagger.processed (Tagger.db (Tagger.runOfScan res))) in
  let reqs1 := List.length (Tagger.tagRequests (Tagger.runOfScan res)) in
  (rows1 + reqs0 = reqs1 + rows0)%nat /\
  (rows0 <= rows1)%nat /\
  forall r' s,
    res = Tagger.ScanCompleted r' s ->
    (Tagger.foundFailed s + rows0 = rows1 + Tagger.skippedAlready s)%nat /\
    (Tagger.newlyTagged s + rows0 <= rows1)%nat.
Proof.
  intros Sc rows0 reqs0 rows1 reqs1.
  assert (Start : Measure.counted rows0 reqs0 r Tagger.noStats).
  { unfold Measure.counted, Measure.balanced. simpl. fold rows0 reqs0. lia. }
  pose proof (scanAndTagAddressIssues_keeps
                (Measure.counted rows0 reqs0) (Measure.balanced rows0 reqs0)
                w tagId
                (fun r s o H => scanOrder_counted rows0 reqs0 w tagId r s o H)
                (fun r s t H => H) (fun r s H => proj1 H)
                cfg fuel r res Start Sc) as K.
  destruct (scanAndTagAddressIssues_extends w tagId cfg fuel r res Sc) as (new & E).
  assert (Grow : (rows0 <= rows1)%nat).
  { unfold rows0, rows1. rewrite E, length_app. lia. }
  unfold Measure.counted, Measure.balanced in K.
  destruct res as [r' s' | r']; simpl in K; fold rows1 reqs1 in K.
  - destruct K as (B & F & T). repeat split; try assumption;
      injection H as <- <-; assumption.
  - repeat split; try assumption; discriminate.
Qed.

Lemma tagger_one_row_per_order_witness :
  Measure.taggerUnique (Tagger.db (Scenario.afterScan (Scenario.afterScan Scenario.taggerFresh))).
Proof.
  assert (U0 : Measure.taggerUnique (Tagger.db Scenario.taggerFresh)) by constructor.
  assert (S1 : exists res,
             Tagger.scanAndTagAddressIssues Scenario.onHoldOnly Scenario.shipstationUp
               10 42 Scenario.taggerFresh = Some res /\
             Tagger.runOfScan res = Scenario.afterScan Scenario.taggerFresh)
    by (eexists; split; vm_compute; reflexivity).
  destruct S1 as (res1 & Sc1 & E1).
  pose proof (proj1 (tagger_one_row_per_order _ _ _ _ _ _ U0 Sc1)) as U1.
  rewrite E1 in U1.
  assert (S2 : exists res,
             Tagger.scanAndTagAddressIssues Scenario.onHoldOnly Scenario.shipstationUp
               10 42 (Scenario.afterScan Scenario.taggerFresh) = Some res /\
             Tagger.runOfScan res
             = Scenario.afterScan (Scenario.afterScan Scenario.taggerFresh))
    by (eexists; split; vm_compute; reflexivity).
  destruct S2 as (res2 & Sc2 & E2).
  pose proof (proj1 (tagger_one_row_per_order _ _ _ _ _ _ U1 Sc2)) as U2.
  now rewrite E2 in U2.
Defined.

Lemma tagger_rows_match_requests_witness :
  List.length (Tagger.processed (Tagger.db (Scenario.afterScan Scenario.taggerFresh)))
  = List.length (Tagger.tagRequests (Scenario.afterScan Scenario.taggerFresh)).
Proof.
  assert (S1 : exists res,
             Tagger.scanAndTagAddressIssues Scenario.onHoldOnly Scenario.shipstationUp
               10 42 Scenario.taggerFresh = Some res /\
             Tagger.runOfScan res = Scenario.afterScan Scenario.taggerFresh)
    by (eexists; split; vm_compute; reflexivity).
  destruct S1 as (res1 & Sc1 & E1).
  pose proof (tagger_rows_match_requests _ _ _ _ _ _ Sc1) as H.
  cbv zeta in H. destruct H as (B & _). rewrite E1 in B.
  exact (eq_trans (plus_n_O _) (eq_trans B (eq_sym (plus_n_O _)))).
Defined.

Section TaggerRescan.

Import Http Tagger Measure.

Lemma tagger_wasProcessed_grows (oid : Z) (r r' : Run) :
  extends r r' -> wasProcessed oid (db r) = true -> wasProcessed oid (db r') = true.
Proof.
  intros (new & E). unfold wasProcessed. rewrite E, existsb_app. now intros ->.
Qed.

Lemma taggerSettled_grows (r r' : Run) (o : option Order) :
  extends r r' -> taggerSettled (db r) o = true -> taggerSettled (db r') o = true.
Proof.
  intros Ext. unfold taggerSettled. destruct o as [ord|]; [| trivial].
  destruct (JS.numOrNull (orderId ord)) as [oid|]; [| trivial].
  destruct (negb (isAddressVerificationFailed (Some ord))); simpl; [trivial |].
  now apply tagger_wasProcessed_grows.
Qed.

Lemma tagger_wasProcessed_markProcessed (now oid : Z) (num : option string)
  (st : string) (nt : option string) (d : DB) :
  wasProcessed oid (markProcessed now oid num st nt d) = true.
Proof.
  apply tagger_wasProcessed_In. rewrite tagger_markProcessed_ids.
  destruct (wasProcessed oid d) eqn:W.
  - now apply tagger_wasProcessed_In.
  - rewrite in_app_iff. right. now left.
Qed.

Lemma scanOrder_settles (w : World) (tagId : Z) (r r' : Run) (s s' : Stats)
  (o : option Order) :
  scanOrder w tagId r s o = StepDone r' s' -> taggerSettled (db r') o = true.
Proof.
  unfold scanOrder, taggerSettled. destruct o as [ord|]; [| discriminate].
  destruct (JS.numOrNull (orderId ord)) as [oid|]; [| reflexivity].
  destruct (negb (isAddressVerificationFailed (Some ord))); simpl;
    [reflexivity |].
  destruct (wasProcessed oid (db r)) eqn:Seen.
  - intros E. injection E as <- _. exact Seen.
  - destruct (addTagToOrder w (ticks r) oid tagId); intros E; injection E as <- _;
      simpl; apply tagger_wasProcessed_markProcessed.
Qed.

Lemma scanOrders_settles (w : World) (tagId : Z) (os : list (option Order)) :
  forall r s r' s',
    scanOrders w tagId r s os = StepDone r' s' ->
    forall o, In o os -> taggerSettled (db r') o = true.
Proof.
  induction os as [|o1 os IH]; intros r s r' s' Sc o Hin; [destruct Hin |].
  simpl in Sc. destruct (scanOrder w tagId r s o1) as [r1 s1 | r1] eqn:St;
    [| discriminate].
  destruct Hin as [<- | Hin]; [| exact (IH _ _ _ _ Sc o Hin)].
  pose proof (scanOrders_extends w tagId os r1 s1) as Ext. rewrite Sc in Ext.
  apply (taggerSettled_grows r1 r' _ Ext). exact (scanOrder_settles _ _ _ _ _ _ _ St).
Qed.

Lemma scanOrder_settled (w : World) (tagId : Z) (r : Run) (s : Stats)
  (o : option Order) :
  taggerSettled (db r) o = true ->
  exists s', scanOrder w tagId r s o = StepDone r s' /\
             newlyTagged s' = newlyTagged s.
Proof.
  unfold scanOrder, taggerSettled. destruct o as [ord|]; [| discriminate].
  destruct (JS.numOrNull (orderId ord)) as [oid|]; [| eauto].
  destruct (negb (isAddressVerificationFailed (Some ord))); simpl; [eauto |].
  intros ->. eauto.
Qed.

Lemma scanOrders_settled (w : World) (tagId : Z) (os : list (option Order)) :
  forall r s,
    (forall o, In o os -> taggerSettled (db r) o = true) ->
    exists s', scanOrders w tagId r s os = StepDone r s' /\
               newlyTagged s' = newlyTagged s.
Proof.
  induction os as [|o os IH]; intros r s All; simpl; [eauto |].
  destruct (scanOrder_settled w tagId r s o (All o (or_introl eq_refl)))
    as (s1 & -> & T1).
  destruct (IH r s1 (fun o' H => All o' (or_intror H))) as (s2 & -> & T2).
  exists s2. split; [reflexivity | congruence].
Qed.

End TaggerRescan.

(** X19.  Scanning a page of orders a second time changes nothing: once the
    orders of a page have been scanned without a throw, scanning the same
    orders again, at any later state of the ledger and whatever ShipStation
    answers, sends no tag request, leaves the ledger as it is and counts no
    order as newly tagged. *)
Theorem page_rescan_changes_nothing (w w2 : Tagger.World) (tagId tagId2 : Z)
  (r r1 r2 : Tagger.Run) (s s1 s2 : Tagger.Stats) (os : list (option Tagger.Order)) :
  Tagger.scanOrders w tagId r s os = Tagger.StepDone r1 s1 ->
  Tagger.extends r1 r2 ->
  exists s3,
    Tagger.scanOrders w2 tagId2 r2 s2 os = Tagger.StepDone r2 s3 /\
    Tagger.newlyTagged s3 = Tagger.newlyTagged s2.
Proof.
  intros Sc Ext. apply scanOrders_settled. intros o Hin.
  apply (taggerSettled_grows r1 r2 _ Ext). exact (scanOrders_settles _ _ _ _ _ _ _ Sc o Hin).
Qed.

Lemma page_rescan_changes_nothing_witness :
  exists r1 s3,
    Tagger.scanOrders Scenario.shipstationUp 42 r1 Tagger.noStats
      [Some Scenario.failedOrder; Some Scenario.fineOrder; Some Scenario.noIdOrder]
    = Tagger.StepDone r1 s3 /\
    List.length (Tagger.processed (Tagger.db r1)) = 1%nat.
Proof.
  assert (Sc : exists r1 s1,
             Tagger.scanOrders Scenario.shipstationUp 42 Scenario.taggerFresh
               Tagger.noStats
               [Some Scenario.failedOrder; Some Scenario.fineOrder;
                Some Scenario.noIdOrder]
             = Tagger.StepDone r1 s1 /\
             List.length (Tagger.processed (Tagger.db r1)) = 1%nat)
    by (do 2 eexists; split; vm_compute; reflexivity).
  destruct Sc as (r1 & s1 & Sc & L).
  destruct (page_rescan_changes_nothing _ Scenario.shipstationUp _ 42 _ _ r1 _ _
              Tagger.noStats _ Sc (extends_refl r1)) as (s3 & Sc2 & _).
  exists r1, s3. split; [exact Sc2 | exact L].
Defined.

(** ** The poll timer, when passes run long *)

(** X20.  How many passes can run at once is bounded by how long a pass can
    take: when no timer-started pass takes longer than [m] poll intervals,
    two passes running at the same instant were started fewer than [m] timer
    firings apart, and the awaited first pass overlaps none of them. *)
Theorem overlap_bounded_by_duration (tm : Scheduler.Timing) (m : Z) (j k : nat) (t : Z) :
  0 < Scheduler.POLL_INTERVAL_MS tm ->
  (forall n, (0 < n)%nat ->
             Scheduler.duration tm n <= m * Scheduler.POLL_INTERVAL_MS tm) ->
  (j <= k)%nat ->
  Scheduler.running tm j t = true ->
  Scheduler.running tm k t = true ->
  (j = 0%nat -> k = 0%nat) /\ (Z.of_nat k - Z.of_nat j < m \/ j = k).
Proof.
  intros I Long Le Rj Rk.
  destruct j as [|j], k as [|k].
  - split; [trivial | now right].
  - apply first_pass_window in Rj. apply scheduled_pass_window in Rk. nia.
  - lia.
  - apply scheduled_pass_window in Rj. apply scheduled_pass_window in Rk.
    pose proof (Long (S j) (Nat.lt_0_succ j)) as Dj.
    split; [discriminate |].
    destruct (Nat.eq_dec j k) as [-> | N]; [now right | left].
    assert (Lt : (j < k)%nat) by lia.
    assert (G : Z.of_nat (S k) * Scheduler.POLL_INTERVAL_MS tm
                < (Z.of_nat (S j) + m) * Scheduler.POLL_INTERVAL_MS tm) by nia.
    apply Z.mul_lt_mono_pos_r in G; [lia | exact I].
Qed.

Lemma overlap_bounded_by_duration_witness :
  (1%nat = 0%nat -> 2%nat = 0%nat) /\ (Z.of_nat 2 - Z.of_nat 1 < 2 \/ 1%nat = 2%nat).
Proof.
  apply (overlap_bounded_by_duration Sample.slowPass 2 1 2 601000).
  - reflexivity.
  - intros n _. simpl. destruct n as [|[|n]]; lia.
  - lia.
  - reflexivity.
  - reflexivity.
Defined.

(** ** Orders listed more than once, and what the tagger tags *)

(** X21.  An order that Shopify lists twice in one fetch is handled once: once
    a list of orders has been processed, processing any order of that list
    again, in any world, leaves the database and the tag requests as they
    are and counts nothing as newly tagged, not found or in error. *)
Theorem listed_twice_handled_once (cfg : Poller.Config) (w w2 : Poller.World)
  (tagId : Z) (acc : Poller.Run * Poller.Stats)
  (os : list (option Poller.ShopifyOrder)) (o : option Poller.ShopifyOrder) :
  In o os ->
  let done := Poller.processOrders cfg w tagId acc os in
  let again := Poller.processOrder cfg w2 tagId done o in
  fst again = fst done /\
  Measure.recorded (snd again) = Measure.recorded (snd done).
Proof.
  intros Hin done again.
  pose proof (processOrders_settles cfg w tagId os acc o Hin) as St.
  destruct (processOrder_settled cfg w2 tagId done o St) as (E & T & N & R).
  split; [exact E |]. unfold Measure.recorded, again. now rewrite T, N, R.
Qed.

Lemma listed_twice_handled_once_witness :
  Poller.tagRequests
    (fst (Poller.processOrders Sample.cfg Sample.allUp 42 (Sample.fresh, Poller.noStats)
            [Some Sample.order1001; Some Sample.orderNoNumber; Some Sample.order1001]))
  = [(555, 42)].
Proof.
  pose proof (listed_twice_handled_once Sample.cfg Sample.allUp Sample.allUp 42
                (Sample.fresh, Poller.noStats)
                [Some Sample.order1001; Some Sample.orderNoNumber]
                (Some Sample.order1001) (or_introl eq_refl)) as H.
  cbv zeta in H. destruct H as (E & _).
  change (Poller.processOrders Sample.cfg Sample.allUp 42 (Sample.fresh, Poller.noStats)
            [Some Sample.order1001; Some Sample.orderNoNumber; Some Sample.order1001])
    with (Poller.processOrder Sample.cfg Sample.allUp 42
            (Poller.processOrders Sample.cfg Sample.allUp 42
               (Sample.fresh, Poller.noStats)
               [Some Sample.order1001; Some Sample.orderNoNumber])
            (Some Sample.order1001)).
  rewrite E. reflexivity.
Defined.

(** X22.  The tagger sends a tag request only for an order that has an order
    id other than 0, whose address validation failed and that has no ledger
    row; it then sends exactly one, for that order id, and the order has a
    ledger row afterwards, whether the request succeeded or not.  Every
    other order leaves the requests and the ledger as they are. *)
Theorem tagger_request_only_for_new_failure (w : Tagger.World) (tagId : Z)
  (r : Tagger.Run) (s : Tagger.Stats) (o : option Tagger.Order) :
  let r' := Tagger.runOfStep (Tagger.scanOrder w tagId r s o) in
  (Tagger.tagRequests r' = Tagger.tagRequests r /\ Tagger.db r' = Tagger.db r) \/
  exists ord oid,
    o = Some ord /\
    Tagger.orderId ord = Some oid /\ oid <> 0 /\
    Tagger.isAddressVerificationFailed (Some ord) = true /\
    Tagger.wasProcessed oid (Tagger.db r) = false /\
    Tagger.tagRequests r' = (Tagger.tagRequests r ++ [(oid, tagId)])%list /\
    Tagger.wasProcessed oid (Tagger.db r') = true.
Proof.
  unfold Tagger.scanOrder. destruct o as [ord|]; [| now left].
  destruct (Tagger.orderId ord) as [oid|] eqn:Id; simpl; [| now left].
  destruct (oid =? 0) eqn:Z0; [now left |]. apply Z.eqb_neq in Z0.
  destruct (Tagger.isAddressVerificationFailed (Some ord)) eqn:Failed; simpl;
    [| now left].
  destruct (Tagger.wasProcessed oid (Tagger.db r)) eqn:Seen; [now left |].
  right. exists ord, oid.
  destruct (Tagger.addTagToOrder w (Tagger.ticks r) oid tagId); simpl;
    repeat split; try assumption; apply tagger_wasProcessed_markProcessed.
Qed.
